(** * TARS backend: the real-time channel of [src/api/websocket.py], the
    functions of [src/utils/linux_utils.py], and the HTTP handlers of
    [app.py], [src/api/processes.py] and [src/api/power.py] that call them.

    The Python code is embedded shallowly.  Dictionaries are [gmap]s, Python
    sets are [gset]s, JSON values are an inductive type, exceptions are values
    of a result type, and the methods of [ConnectionManager] are computations
    in a state-and-exception monad over one [World]: the manager object, the
    asyncio tasks it created, and what was written on every websocket.

    asyncio runs one coroutine at a time and switches only at an [await]
    that suspends.  The model has two kinds of coroutine steps: one turn of
    the receive loop of an endpoint, taken as a whole, and one resumption of
    a background task, which runs until the task suspends in a send or ends.
    A run is a list of such steps in the order the event loop takes them.
    [Task.cancel()] follows Python 3.8 and later, where [CancelledError] is
    not an [Exception]. *)

From Stdlib Require Import ZArith Ascii String QArith Qcanon.
From stdpp Require Import base decidable option list strings pretty
  countable gmap sorting.

Local Open Scope string_scope.
Local Open Scope Z_scope.
#[local] Set Warnings "-clear-no-such-hyp".

(** ** Exceptions and results *)

(** The exception classes the two modules raise or catch.  All of them are
    subclasses of Python's [Exception]; [Exception_] is the class itself. *)
Inductive exc_class : Set :=
| Exception_
| WebSocketDisconnect
| JSONDecodeError
| AttributeError
| TypeError
| KeyError
| FileNotFoundError
| TimeoutExpired          (* subprocess.TimeoutExpired *)
| NoSuchProcess           (* psutil.NoSuchProcess *)
| AccessDenied            (* psutil.AccessDenied *)
| PsutilTimeoutExpired.   (* psutil.TimeoutExpired *)

#[global] Instance exc_class_eq_dec : EqDecision exc_class.
Proof. solve_decision. Defined.

(** An exception object: its class and the text [str(e)] gives. *)
Record exn : Set := mk_exn { exn_class : exc_class; exn_str : string }.

#[global] Instance exn_eq_dec : EqDecision exn.
Proof. solve_decision. Defined.

(** [raise Exception(msg)] *)
Definition Exception (msg : string) : exn := mk_exn Exception_ msg.

(** What a call does: it returns a value or raises. *)
Inductive outcome (A : Type) : Type :=
| Returns (a : A)
| Raises (e : exn).
Arguments Returns {A} a.
Arguments Raises {A} e.

Definition outcome_bind {A B} (x : outcome A) (f : A → outcome B) : outcome B :=
  match x with
  | Returns a => f a
  | Raises e => Raises e
  end.

(** [try: body / except Exception as e: handler e] for code without state. *)
Definition outcome_catch {A} (body : outcome A) (handler : exn → outcome A)
  : outcome A :=
  match body with
  | Returns a => Returns a
  | Raises e => handler e
  end.

(** ** JSON values *)

(** What [json.loads] produces and [json.dumps] accepts, floats apart:
    numbers are integers, as the fields the code reads ([pid], [tail],
    [limit]) are meant to be.  A message that holds a float is outside the
    model, and no theorem speaks of one. *)
#[local] Unset Elimination Schemes.
Inductive json : Set :=
| JNull
| JBool (b : bool)
| JInt (z : Z)
| JStr (s : string)
| JList (l : list json)
| JDict (fields : list (string * json)).
#[local] Set Elimination Schemes.

(** Python truthiness, as in [if topic:] and [if container_id and action:]. *)
Definition truthy (v : json) : bool :=
  match v with
  | JNull => false
  | JBool b => b
  | JInt z => negb (z =? 0)
  | JStr s => negb (String.eqb s "")
  | JList l => match l with [] => false | _ => true end
  | JDict l => match l with [] => false | _ => true end
  end.

Fixpoint assoc (k : string) (l : list (string * json)) : option json :=
  match l with
  | [] => None
  | (k', v) :: l' => if String.eqb k k' then Some v else assoc k l'
  end.

(** [type(v).__name__] *)
Definition type_name (v : json) : string :=
  match v with
  | JNull => "NoneType"
  | JBool _ => "bool"
  | JInt _ => "int"
  | JStr _ => "str"
  | JList _ => "list"
  | JDict _ => "dict"
  end.

(** The [AttributeError] of [v.attribute] for a value without it. *)
Definition no_attribute (v : json) (attribute : string) : exn :=
  mk_exn AttributeError
    ("'" +:+ type_name v +:+ "' object has no attribute '" +:+ attribute
     +:+ "'").

(** [message.get(key, default)]: only a dict has [get]. *)
Definition get_default (message : json) (key : string) (dflt : json)
  : outcome json :=
  match message with
  | JDict fields => Returns (default dflt (assoc key fields))
  | _ => Raises (no_attribute message "get")
  end.

(** [message.get(key)] *)
Definition get (message : json) (key : string) : outcome json :=
  get_default message key JNull.

(** What a Python set can hold of a JSON value: [None], integers (a bool is
    the integer 0 or 1 there: [True == 1] and they hash alike) and strings.
    Lists and dicts are unhashable. *)
Inductive hashable : Set :=
| HNone
| HInt (z : Z)
| HStr (s : string).

#[global] Instance hashable_eq_dec : EqDecision hashable.
Proof. solve_decision. Defined.

#[global] Instance hashable_countable : Countable hashable.
Proof.
  refine (inj_countable'
    (λ h, match h with
          | HNone => inl ()
          | HInt z => inr (inl z)
          | HStr s => inr (inr s)
          end)
    (λ x, match x with
          | inl _ => HNone
          | inr (inl z) => HInt z
          | inr (inr s) => HStr s
          end) _).
  by intros [].
Defined.

Definition hash_key (v : json) : outcome hashable :=
  match v with
  | JNull => Returns HNone
  | JBool b => Returns (HInt (if b then 1 else 0))
  | JInt z => Returns (HInt z)
  | JStr s => Returns (HStr s)
  | JList _ => Raises (mk_exn TypeError "unhashable type: 'list'")
  | JDict _ => Raises (mk_exn TypeError "unhashable type: 'dict'")
  end.

(** ** Strings *)

Definition is_lower (c : ascii) : bool :=
  let n := nat_of_ascii c in (97 <=? n)%nat && (n <=? 122)%nat.
Definition is_upper (c : ascii) : bool :=
  let n := nat_of_ascii c in (65 <=? n)%nat && (n <=? 90)%nat.
Definition upper (c : ascii) : ascii :=
  if is_lower c then ascii_of_nat (nat_of_ascii c - 32) else c.
Definition lower (c : ascii) : ascii :=
  if is_upper c then ascii_of_nat (nat_of_ascii c + 32) else c.

Fixpoint lowercase (s : string) : string :=
  match s with
  | EmptyString => EmptyString
  | String c s' => String (lower c) (lowercase s')
  end.

(** The strings of 7-bit characters. *)
Fixpoint is_ascii (s : string) : bool :=
  match s with
  | EmptyString => true
  | String c s' => (nat_of_ascii c <? 128)%nat && is_ascii s'
  end.

(** [str.capitalize()] of a string of ASCII characters: first character
    upper case, the rest lower case.  Python maps the case of every Unicode
    letter; that of the letters outside ASCII is not modelled, and the
    theorems that state a capitalized text are about [is_ascii] strings. *)
Definition capitalize (s : string) : string :=
  match s with
  | EmptyString => EmptyString
  | String c s' => String (upper c) (lowercase s')
  end.

(** [action.capitalize()]: only a [str] has the method. *)
Definition capitalize_json (v : json) : outcome string :=
  match v with
  | JStr s => Returns (capitalize s)
  | _ => Raises (no_attribute v "capitalize")
  end.

(** [needle in hay] for strings. *)
Fixpoint contains (needle hay : string) : bool :=
  String.prefix needle hay ||
  match hay with
  | EmptyString => false
  | String _ hay' => contains needle hay'
  end.

(** [s.split(sep)] for a one-character separator: never an empty list. *)
Fixpoint split (sep : ascii) (s : string) : list string :=
  match s with
  | EmptyString => [EmptyString]
  | String c s' =>
      if Ascii.eqb c sep then EmptyString :: split sep s'
      else match split sep s' with
           | [] => [String c EmptyString]
           | p :: ps => String c p :: ps
           end
  end.

(** The ASCII characters [str.strip()] removes. *)
Definition is_space (c : ascii) : bool :=
  let n := nat_of_ascii c in
  ((9 <=? n)%nat && (n <=? 13)%nat) || ((28 <=? n)%nat && (n <=? 32)%nat).

Fixpoint lstrip (s : string) : string :=
  match s with
  | EmptyString => EmptyString
  | String c s' => if is_space c then lstrip s' else s
  end.

Fixpoint rstrip (s : string) : string :=
  match s with
  | EmptyString => EmptyString
  | String c s' =>
      match rstrip s' with
      | EmptyString => if is_space c then EmptyString else String c EmptyString
      | r => String c r
      end
  end.

Definition strip (s : string) : string := lstrip (rstrip s).

(** [repr(v)] and [str(v)], as an f-string renders a JSON value.  The
    escapes [repr] puts inside quoted strings are not modelled. *)
Fixpoint py_repr (v : json) : string :=
  match v with
  | JNull => "None"
  | JBool true => "True"
  | JBool false => "False"
  | JInt z => pretty z
  | JStr s => "'" +:+ s +:+ "'"
  | JList l => "[" +:+ String.concat ", " (map py_repr l) +:+ "]"
  | JDict l =>
      "{" +:+ String.concat ", "
               (map (λ kv, "'" +:+ fst kv +:+ "': " +:+ py_repr (snd kv)) l)
          +:+ "}"
  end.

Definition py_str (v : json) : string :=
  match v with
  | JStr s => s
  | _ => py_repr v
  end.

(** ** The collaborators of [src/utils/linux_utils.py] *)

(** What [subprocess.run(..., capture_output=True, text=True)] returns. *)
Record CompletedProcess : Set := {
  returncode : Z;
  stdout : string;
  stderr : string;
}.

(** The host the backend runs on: every call that leaves the code modelled
    here.  [subprocess_run args] is [subprocess.run(args, ...)].  The four
    [psutil] calls are those [kill_process] makes: [psutil.Process(pid)] and
    [terminate()], [wait(timeout=5)], [kill()] on the object it returns.
    [get_system_info], [get_system_metrics] and [get_processes] are the
    readers of that name in [linux_utils.py], and [get_network_stats] is the
    counting of lines 249-284 of [websocket.py]: they only read [psutil]
    and [platform] counters, and what matters of them here is that they
    return a value or raise. *)
Record Host : Type := {
  subprocess_run : list json → outcome CompletedProcess;
  psutil_Process : json → outcome unit;
  proc_terminate : json → outcome unit;
  proc_wait : json → outcome unit;
  proc_kill : json → outcome unit;
  get_system_info : outcome json;
  get_system_metrics : outcome json;
  get_processes : json → outcome json;
  get_network_stats : outcome json;
}.

#[global] Instance outcome_ret : MRet outcome := @Returns.
#[global] Instance outcome_mbind : MBind outcome :=
  λ A B f x, outcome_bind x f.

(** [try: body / except cls: handler]: other classes pass through. *)
Definition catch_class {A} (classes : list exc_class) (body : outcome A)
    (handler : exn → outcome A) : outcome A :=
  outcome_catch body
    (λ e, if bool_decide (exn_class e ∈ classes) then handler e else Raises e).

(** [kill_process], lines 145-164. *)
Definition kill_process (h : Host) (pid : json) : outcome bool :=
  outcome_catch
    (psutil_Process h pid ≫= λ _,
     proc_terminate h pid ≫= λ _,
     (* Wait for process to terminate; force kill if it takes too long *)
     catch_class [PsutilTimeoutExpired] (proc_wait h pid)
                 (λ _, proc_kill h pid) ≫= λ _,
     Returns true)
    (λ e, match exn_class e with
          | NoSuchProcess => Raises (Exception "Process not found")
          | AccessDenied =>
              Raises (Exception "Permission denied to kill process")
          | _ => Raises (Exception ("Failed to kill process: " +:+ exn_str e))
          end).

Definition tab : ascii := ascii_of_nat 9.
Definition newline : ascii := ascii_of_nat 10.

(** The [--format] argument of [docker ps]: the Go template fields joined by
    tab characters. *)
Definition ps_format (fields : list string) : json :=
  JStr (String.concat (String tab EmptyString) fields).

(** The body of the [for line in ...] loop of the first definition of
    [get_docker_containers] (lines 192-210): the entries one line adds. *)
Definition container_of_line_1 (line : string) : list json :=
  if String.eqb (strip line) "" then []
  else
    match split tab line with
    | container_id :: name :: image :: status :: _ =>
        let is_running := contains "Up" status in
        let status_text := if is_running then "running" else "stopped" in
        [JDict [("id", JStr container_id); ("name", JStr name);
                ("image", JStr image); ("status", JStr status_text)]]
    | _ => []
    end.

(** The first definition of [get_docker_containers], lines 167-217.  The
    module defines the name a second time further down (lines 304-360), so
    after import the name is bound to the second definition and nothing calls
    this one. *)
Definition get_docker_containers_1 (h : Host) : outcome json :=
  outcome_catch
    ((* Check if docker command exists: [Some r] is an early [return r] *)
     catch_class [FileNotFoundError; TimeoutExpired]
       (subprocess_run h [JStr "docker"; JStr "--version"] ≫= λ _,
        Returns None)
       (λ _, (* Return empty list if Docker is not available *)
             Returns (Some (JList []))) ≫= λ early,
     match early with
     | Some r => Returns r
     | None =>
         subprocess_run h
           [JStr "docker"; JStr "ps"; JStr "-a"; JStr "--format";
            ps_format ["{{.ID}}"; "{{.Names}}"; "{{.Image}}"; "{{.Status}}"]]
           ≫= λ result,
         if negb (returncode result =? 0) then
           (* If Docker daemon is not running, return empty list *)
           if contains "Cannot connect to the Docker daemon" (stderr result)
           then Returns (JList [])
           else Raises (Exception ("Docker command failed: " +:+ stderr result))
         else
           Returns (JList (flat_map container_of_line_1
                             (split newline (strip (stdout result)))))
     end)
    (λ e, match exn_class e with
          | TimeoutExpired => Raises (Exception "Docker command timed out")
          | _ => (* Return empty list on any error *) Returns (JList [])
          end).

(** The loop body of the second definition (lines 321-352). *)
Definition container_of_line (line : string) : list json :=
  if String.eqb (strip line) "" then []
  else
    match split tab line with
    | container_id :: name :: image :: status :: rest =>
        let ports := match rest with p :: _ => p | [] => "" end in
        let health_status :=
          if contains "Up" status then
            if contains "healthy" status then "healthy"
            else if contains "unhealthy" status then "unhealthy"
            else "running"
          else if contains "Exited" status then "stopped"
          else if contains "Created" status then "created"
          else "unknown" in
        [JDict [("id", JStr container_id); ("name", JStr name);
                ("image", JStr image); ("status", JStr health_status);
                ("ports", JStr ports); ("full_status", JStr status)]]
    | _ => []
    end.

(** What the three [except] clauses that end most functions of the module do
    with an exception [e] raised in the [try] body. *)
Definition reraise {A} (timed_out failed : string) (e : exn) : outcome A :=
  match exn_class e with
  | TimeoutExpired => Raises (Exception timed_out)
  | FileNotFoundError => Raises (Exception "Docker command not found")
  | _ => Raises (Exception (failed +:+ exn_str e))
  end.

(** [get_docker_containers] as callers see it: the second definition, lines
    304-360. *)
Definition get_docker_containers (h : Host) : outcome json :=
  outcome_catch
    (subprocess_run h
       [JStr "docker"; JStr "ps"; JStr "-a"; JStr "--format";
        ps_format ["{{.ID}}"; "{{.Names}}"; "{{.Image}}"; "{{.Status}}";
                   "{{.Ports}}"]] ≫= λ result,
     if negb (returncode result =? 0) then
       Raises (Exception ("Docker ps command failed: " +:+ stderr result))
     else
       Returns (JList (flat_map container_of_line
                         (split newline (strip (stdout result))))))
    (reraise "Docker command timed out" "Failed to get containers: ").

(** [get_container_logs], lines 445-464. *)
Definition get_container_logs (h : Host) (container_id tail : json)
  : outcome string :=
  outcome_catch
    (subprocess_run h
       [JStr "docker"; JStr "logs"; JStr "--tail"; JStr (py_str tail);
        container_id] ≫= λ result,
     if negb (returncode result =? 0) then
       Raises (Exception ("Docker logs command failed: " +:+ stderr result))
     else Returns (stdout result))
    (reraise "Docker logs command timed out" "Failed to get container logs: ").

Definition json_eqb_str (v : json) (s : string) : bool :=
  match v with
  | JStr s' => String.eqb s' s
  | _ => false
  end.

(** [execute_container_action], lines 467-489. *)
Definition execute_container_action (h : Host) (container_id action : json)
  : outcome string :=
  outcome_catch
    (if negb (existsb (json_eqb_str action) ["start"; "stop"; "restart"]) then
       Raises (Exception "Invalid container action")
     else
       subprocess_run h [JStr "docker"; action; container_id] ≫= λ result,
       if negb (returncode result =? 0) then
         Raises (Exception ("Docker " +:+ py_str action +:+ " command failed: "
                            +:+ stderr result))
       else Returns ("Container " +:+ py_str action +:+ "ed successfully"))
    (reraise "Docker command timed out"
             ("Failed to " +:+ py_str action +:+ " container: ")).

(** ** The world: the manager object, asyncio's tasks and the transports *)

(** A websocket object and an [asyncio.Task] are known by their identity. *)
Abbreviation WebSocket := nat (only parsing).
Abbreviation Task := nat (only parsing).

(** The coroutine a background task runs, with the arguments it was created
    with. *)
Inductive coroutine : Set :=
| handle_container_action_coro
    (connection_id : string) (container_id action : json)
| stream_container_logs_coro
    (connection_id : string) (container_id tail follow : json).

(** How far a task has got.  [Created]: scheduled by [asyncio.create_task],
    body not yet entered.  [Suspended]: [handle_container_action] waits in the
    [await] of its first send, the in_progress frame written.  [Finished]:
    the body ran to its end.  [Cancelled]: [CancelledError] ended it. *)
Inductive progress : Set := Created | Suspended | Finished | Cancelled.

Record task_state : Set := {
  coro : coroutine;
  at_pc : progress;
  must_cancel : bool;       (* [Task.cancel()] was called on the pending task *)
}.

(** [ConnectionManager.__init__], lines 28-30: the three dictionaries.  (The
    docker client of lines 31-36 is never used.) *)
Record ConnectionManager : Type := {
  active_connections : gmap string WebSocket;
  subscriptions : gmap string (gset hashable);
  background_tasks : gmap string Task;
}.

(** Calls worth observing that leave no other mark: a push attempted through
    [send_personal_message], and a blocking collaborator entered by a
    background coroutine. *)
Inductive call : Set :=
| Push (connection_id : string) (message : json)
| Blocking (name : string) (args : list json).

Record World : Type := {
  manager : ConnectionManager;          (* the module-level [manager] *)
  tasks : gmap Task task_state;         (* every task created so far *)
  next_task : Task;                     (* identity of the next task *)
  endpoints : gmap WebSocket string;    (* running [websocket_endpoint]s *)
  broken : gset WebSocket;              (* sockets whose transport raises *)
  sent : list (WebSocket * json);       (* frames [send_text] wrote, in order *)
  calls : list call;                    (* log of observed calls, in order *)
}.

Definition set_manager (m : ConnectionManager) (w : World) : World :=
  {| manager := m; tasks := tasks w; next_task := next_task w;
     endpoints := endpoints w; broken := broken w; sent := sent w;
     calls := calls w |}.

Definition set_tasks (ts : gmap Task task_state) (w : World) : World :=
  {| manager := manager w; tasks := ts; next_task := next_task w;
     endpoints := endpoints w; broken := broken w; sent := sent w;
     calls := calls w |}.

Definition set_endpoints (es : gmap WebSocket string) (w : World) : World :=
  {| manager := manager w; tasks := tasks w; next_task := next_task w;
     endpoints := es; broken := broken w; sent := sent w; calls := calls w |}.

Definition set_broken (b : gset WebSocket) (w : World) : World :=
  {| manager := manager w; tasks := tasks w; next_task := next_task w;
     endpoints := endpoints w; broken := b; sent := sent w; calls := calls w |}.

Definition write_frame (websocket : WebSocket) (data : json) (w : World)
  : World :=
  {| manager := manager w; tasks := tasks w; next_task := next_task w;
     endpoints := endpoints w; broken := broken w;
     sent := sent w ++ [(websocket, data)]; calls := calls w |}.

Definition record_call (c : call) (w : World) : World :=
  {| manager := manager w; tasks := tasks w; next_task := next_task w;
     endpoints := endpoints w; broken := broken w; sent := sent w;
     calls := calls w ++ [c] |}.

(** A fresh process: nothing registered, no task, nothing sent. *)
Definition initial_world : World :=
  {| manager := {| active_connections := ∅; subscriptions := ∅;
                   background_tasks := ∅ |};
     tasks := ∅; next_task := 0%nat; endpoints := ∅; broken := ∅;
     sent := []; calls := [] |}.

(** Computations on the world that return or raise. *)
Definition M (A : Type) : Type := World → outcome A * World.

Definition ret {A} (a : A) : M A := λ w, (Returns a, w).

Definition bind {A B} (m : M A) (f : A → M B) : M B := λ w,
  match m w with
  | (Returns a, w') => f a w'
  | (Raises e, w') => (Raises e, w')
  end.

Notation "'let!' x ':=' m 'in' k" := (bind m (λ x, k))
  (at level 10, x name, m at level 100, k at level 200,
   format "'[v' 'let!'  x  ':='  m  'in' '/' k ']'").
Notation "m ;; k" := (bind m (λ _, k))
  (at level 100, k at level 200, right associativity,
   format "'[v' m  ;; '/' k ']'").

(** A call of a function without state. *)
Definition lift {A} (x : outcome A) : M A := λ w, (x, w).

(** [try: body / except Exception as e: handler e] *)
Definition try_except {A} (body : M A) (handler : exn → M A) : M A := λ w,
  match body w with
  | (Returns a, w') => (Returns a, w')
  | (Raises e, w') => handler e w'
  end.

Definition modify (f : World → World) : M unit := λ w, (Returns (), f w).

(** ** [ConnectionManager] *)

(** [await websocket.accept()] *)
Definition accept (websocket : WebSocket) : M unit := λ w,
  if bool_decide (websocket ∈ broken w)
  then (Raises (Exception "websocket.accept failed"), w)
  else (Returns (), w).

(** [await websocket.send_text(data)], [data] being [json.dumps(message)]:
    the frame is kept as the message it encodes. *)
Definition send_text (websocket : WebSocket) (message : json) : M unit := λ w,
  if bool_decide (websocket ∈ broken w)
  then (Raises (Exception "websocket.send_text failed"), w)
  else (Returns (), write_frame websocket message w).

(** [connect], lines 38-42. *)
Definition connect (websocket : WebSocket) (connection_id : string) : M unit :=
  accept websocket ;;
  modify (λ w,
    let m := manager w in
    set_manager
      {| active_connections := <[connection_id := websocket]> (active_connections m);
         subscriptions := <[connection_id := ∅]> (subscriptions m);
         background_tasks := background_tasks m |} w).

(** [Task.cancel()]: a task that is done is left alone; a pending one is
    asked to stop, which takes effect when it is next resumed. *)
Definition request_cancel (ts : task_state) : task_state :=
  match at_pc ts with
  | Finished | Cancelled => ts
  | Created | Suspended =>
      {| coro := coro ts; at_pc := at_pc ts; must_cancel := true |}
  end.

Definition cancel (t : Task) (w : World) : World :=
  set_tasks (alter request_cancel t (tasks w)) w.

(** [disconnect], lines 44-52.  Each [del] is guarded by a membership test;
    [delete] on an absent key leaves the map as it is. *)
Definition disconnect (connection_id : string) (w : World) : World :=
  let m := manager w in
  let w1 :=
    match background_tasks m !! connection_id with
    | Some t => cancel t w
    | None => w
    end in
  set_manager
    {| active_connections := delete connection_id (active_connections m);
       subscriptions := delete connection_id (subscriptions m);
       background_tasks := delete connection_id (background_tasks m) |} w1.

(** [send_personal_message], lines 54-60. *)
Definition send_personal_message (message : json) (connection_id : string)
  : M unit :=
  modify (record_call (Push connection_id message)) ;;
  λ w,
    match active_connections (manager w) !! connection_id with
    | Some websocket =>
        try_except (send_text websocket message)
                   (λ e, modify (disconnect connection_id)) w
    | None => (Returns (), w)
    end.

(** [subscribe], lines 62-65. *)
Definition subscribe (connection_id : string) (topic : json) : M unit := λ w,
  let m := manager w in
  match subscriptions m !! connection_id with
  | Some topics =>
      (let! k := lift (hash_key topic) in
       modify (set_manager
         {| active_connections := active_connections m;
            subscriptions :=
              <[connection_id := topics ∪ {[k]}]> (subscriptions m);
            background_tasks := background_tasks m |})) w
  | None => (Returns (), w)
  end.

(** [unsubscribe], lines 67-70. *)
Definition unsubscribe (connection_id : string) (topic : json) : M unit := λ w,
  let m := manager w in
  match subscriptions m !! connection_id with
  | Some topics =>
      (let! k := lift (hash_key topic) in
       modify (set_manager
         {| active_connections := active_connections m;
            subscriptions :=
              <[connection_id := topics ∖ {[k]}]> (subscriptions m);
            background_tasks := background_tasks m |})) w
  | None => (Returns (), w)
  end.

(** ** The background coroutines *)

Definition container_action_result
    (container_id action : json) (status message : string) : json :=
  JDict [("type", JStr "container_action_result");
         ("container_id", container_id); ("action", action);
         ("status", JStr status); ("message", JStr message)].

(** Lines 75-82 of [handle_container_action]: notify start. *)
Definition notify_start (connection_id : string) (container_id action : json)
  : M unit :=
  let! capitalized := lift (capitalize_json action) in
  send_personal_message
    (container_action_result container_id action "in_progress"
       (capitalized +:+ " requested..."))
    connection_id.

(** Lines 84-92: the blocking call to the docker CLI and the success push. *)
Definition run_action (h : Host) (connection_id : string)
    (container_id action : json) : M unit :=
  modify (record_call
            (Blocking "execute_container_action" [container_id; action])) ;;
  let! result_msg := lift (execute_container_action h container_id action) in
  send_personal_message
    (container_action_result container_id action "success" result_msg)
    connection_id.

(** Lines 93-100: the [except Exception as e] clause. *)
Definition action_failed (connection_id : string) (container_id action : json)
    (e : exn) : M unit :=
  send_personal_message
    (container_action_result container_id action "error" (exn_str e))
    connection_id.

(** [handle_container_action], lines 72-100, run from its first line to its
    last. *)
Definition handle_container_action (h : Host) (connection_id : string)
    (container_id action : json) : M unit :=
  try_except
    (notify_start connection_id container_id action ;;
     run_action h connection_id container_id action)
    (action_failed connection_id container_id action).

(** [stream_container_logs], lines 102-118.  [follow] is accepted and
    ignored: the reply always carries [False]. *)
Definition stream_container_logs (h : Host) (connection_id : string)
    (container_id tail follow : json) : M unit :=
  try_except
    (modify (record_call
               (Blocking "get_container_logs" [container_id; tail])) ;;
     let! logs := lift (get_container_logs h container_id tail) in
     send_personal_message
       (JDict [("type", JStr "container_logs");
               ("container_id", container_id); ("logs", JStr logs);
               ("tail", tail); ("follow", JBool false)])
       connection_id)
    (λ e,
     send_personal_message
       (JDict [("type", JStr "container_logs_error");
               ("container_id", container_id); ("error", JStr (exn_str e))])
       connection_id).

(** ** Tasks under asyncio's scheduler *)

(** [asyncio.create_task(coro)]: the task is scheduled; its body runs only
    when the event loop gets to it. *)
Definition create_task (c : coroutine) : M Task := λ w,
  let t := next_task w in
  (Returns t,
   {| manager := manager w;
      tasks := <[t := {| coro := c; at_pc := Created; must_cancel := false |}]>
                 (tasks w);
      next_task := S t; endpoints := endpoints w; broken := broken w;
      sent := sent w; calls := calls w |}).

Definition set_progress (t : Task) (p : progress) (w : World) : World :=
  set_tasks
    (alter (λ ts, {| coro := coro ts; at_pc := p;
                     must_cancel := must_cancel ts |}) t (tasks w)) w.

(** Whether [send_personal_message] to [connection_id] reaches the [await]
    of a [send_text] that goes through: only there can the sending
    coroutine be suspended.  An unregistered key returns at once, and a
    failed write is handled without a further [await]. *)
Definition send_awaits (connection_id : string) (w : World) : bool :=
  match active_connections (manager w) !! connection_id with
  | Some websocket => bool_decide (websocket ∉ broken w)
  | None => false
  end.

(** The rest of [handle_container_action] once the first send is over:
    lines 84-100. *)
Definition finish_action (h : Host) (connection_id : string)
    (container_id action : json) : M unit :=
  try_except (run_action h connection_id container_id action)
             (action_failed connection_id container_id action).

(** Coroutine [c], resumed at [p] and not cancelled, runs until it suspends
    or ends: where it then is, and what it did. *)
Definition advance (h : Host) (c : coroutine) (p : progress) (w : World)
  : progress * World :=
  match c, p with
  | handle_container_action_coro cid container_id action, Created =>
      match notify_start cid container_id action w with
      | (Returns _, w1) =>
          if send_awaits cid w then (Suspended, w1)
          else (Finished, (finish_action h cid container_id action w1).2)
      | (Raises e, w1) =>
          (Finished, (action_failed cid container_id action e w1).2)
      end
  | handle_container_action_coro cid container_id action, _ =>
      (Finished, (finish_action h cid container_id action w).2)
  | stream_container_logs_coro cid container_id tail follow, _ =>
      (Finished, (stream_container_logs h cid container_id tail follow w).2)
  end.

Definition is_done (p : progress) : bool :=
  match p with
  | Finished | Cancelled => true
  | Created | Suspended => false
  end.

(** The event loop runs task [t] until it next suspends or ends.

    A task on which [cancel()] was called gets [CancelledError] where it is
    resumed: before its first line when it has not started, inside the
    [await] of the send when it is [Suspended].  [CancelledError] derives
    from [BaseException], so neither [except Exception] clause (line 58,
    line 93) catches it, and the task ends there.  A task that is done does
    nothing more. *)
Definition step_task (h : Host) (t : Task) (w : World) : World :=
  match tasks w !! t with
  | None => w
  | Some ts =>
      if is_done (at_pc ts) then w
      else if must_cancel ts then set_progress t Cancelled w
      else
        let r := advance h (coro ts) (at_pc ts) w in
        set_progress t r.1 r.2
  end.

(** ** [websocket_endpoint] *)

(** What one [await websocket.receive_text()] and the [json.loads] after it
    give (lines 138-139): the peer is gone, the frame is not a text frame,
    the text is not JSON, or the text decodes to [message].  Starlette's
    [receive_text] returns [message["text"]], a key the message of a binary
    frame does not have. *)
Inductive frame : Set :=
| Closed
| Binary
| Garbage (data : string)
| Json (message : json).

Definition receive (f : frame) : M json :=
  lift match f with
       | Closed => Raises (mk_exn WebSocketDisconnect "")
       | Binary => Raises (mk_exn KeyError "'text'")
       | Garbage data => Raises (mk_exn JSONDecodeError "Expecting value")
       | Json message => Returns message
       end.

Definition error_reply (text : string) : json :=
  JDict [("type", JStr "error"); ("message", JStr text)].

Definition data_reply (type : string) (data : json) : json :=
  JDict [("type", JStr type); ("data", data)].

(** The shape of the synchronous branches: call the collaborator, push its
    result; on an exception push an [error] reply instead. *)
Definition reply (connection_id : string) (type failed : string)
    (collaborator : outcome json) : M unit :=
  try_except
    (let! data := lift collaborator in
     send_personal_message (data_reply type data) connection_id)
    (λ e, send_personal_message (error_reply (failed +:+ exn_str e))
                                connection_id).

(** The reply of lines 200-205. *)
Definition process_kill_result (pid : json) (success : bool) : json :=
  JDict [("type", JStr "process_kill_result"); ("pid", pid);
         ("success", JBool success);
         ("message",
          JStr ("Process " +:+ py_str pid +:+ " " +:+
                (if success then "killed" else "failed to kill")))].

Definition record_task (connection_id : string) (task : Task) : M unit :=
  modify (λ w,
    let m := manager w in
    set_manager
      {| active_connections := active_connections m;
         subscriptions := subscriptions m;
         background_tasks := <[connection_id := task]> (background_tasks m) |}
      w).

(** Lines 142-299: what the loop does with a decoded [message]. *)
Definition dispatch (h : Host) (connection_id : string) (message : json)
  : M unit :=
  let! message_type := lift (get message "type") in
  if json_eqb_str message_type "subscribe" then
    let! topic := lift (get message "topic") in
    if truthy topic then subscribe connection_id topic else ret ()
  else if json_eqb_str message_type "unsubscribe" then
    let! topic := lift (get message "topic") in
    if truthy topic then unsubscribe connection_id topic else ret ()
  else if json_eqb_str message_type "get_system_info" then
    reply connection_id "system_info" "Failed to fetch system info: "
          (get_system_info h)
  else if json_eqb_str message_type "get_metrics" then
    reply connection_id "metrics" "Failed to fetch metrics: "
          (get_system_metrics h)
  else if json_eqb_str message_type "get_processes" then
    reply connection_id "processes_data" "Failed to fetch processes: "
          (get_default message "limit" (JInt 20) ≫= get_processes h)
  else if json_eqb_str message_type "kill_process" then
    try_except
      (let! pid := lift (get message "pid") in
       let! success := lift (kill_process h pid) in
       send_personal_message (process_kill_result pid success)
                             connection_id)
      (λ e, send_personal_message
              (error_reply ("Failed to kill process: " +:+ exn_str e))
              connection_id)
  else if json_eqb_str message_type "get_containers" then
    reply connection_id "containers_data" "Failed to fetch containers: "
          (get_docker_containers h)
  else if json_eqb_str message_type "container_action" then
    let! container_id := lift (get message "container_id") in
    let! action := lift (get message "action") in
    if truthy container_id && truthy action then
      (* Run container action in background via CLI *)
      let! task := create_task
                     (handle_container_action_coro connection_id
                        container_id action) in
      record_task connection_id task
    else ret ()
  else if json_eqb_str message_type "get_container_logs" then
    let! container_id := lift (get message "container_id") in
    let! tail := lift (get_default message "tail" (JInt 100)) in
    let! follow := lift (get_default message "follow" (JBool false)) in
    if truthy container_id then
      (* Run log retrieval in background *)
      let! task := create_task
                     (stream_container_logs_coro connection_id
                        container_id tail follow) in
      record_task connection_id task
    else ret ()
  else if json_eqb_str message_type "get_network_stats" then
    reply connection_id "network_stats" "Failed to fetch network stats: "
          (get_network_stats h)
  else ret ().

(** One turn of the [while True] loop, lines 138-299. *)
Definition iteration (h : Host) (connection_id : string) (f : frame)
  : M unit :=
  let! message := receive f in
  dispatch h connection_id message.

(** Lines 129-135: the handshake.  When [connect] raises, the endpoint
    returns; otherwise the coroutine enters its loop on this socket. *)
Definition open_endpoint (websocket : WebSocket) (connection_id : string)
    (w : World) : World :=
  match connect websocket connection_id w with
  | (Returns _, w') =>
      set_endpoints (<[websocket := connection_id]> (endpoints w')) w'
  | (Raises _, w') => w'
  end.

(** The endpoint reading [websocket] takes one turn of its loop on [f]; no
    other coroutine runs in the middle of a turn.  An exception that leaves
    the turn reaches line 301 or line 303: both clauses call
    [manager.disconnect], and the endpoint returns. *)
Definition step_endpoint (h : Host) (websocket : WebSocket) (f : frame)
    (w : World) : World :=
  match endpoints w !! websocket with
  | None => w
  | Some connection_id =>
      match iteration h connection_id f w with
      | (Returns _, w') => w'
      | (Raises _, w') =>
          set_endpoints (delete websocket (endpoints w'))
                        (disconnect connection_id w')
      end
  end.

(** What happens next in the process: a client opens [websocket] under
    [connection_id]; the endpoint of [websocket] receives a frame; the event
    loop resumes a task; the transport of [websocket] breaks. *)
Inductive event : Set :=
| Open (websocket : WebSocket) (connection_id : string)
| Receive (websocket : WebSocket) (f : frame)
| Resume (t : Task)
| Break (websocket : WebSocket).

Definition step (h : Host) (ev : event) (w : World) : World :=
  match ev with
  | Open websocket connection_id => open_endpoint websocket connection_id w
  | Receive websocket f => step_endpoint h websocket f w
  | Resume t => step_task h t w
  | Break websocket => set_broken (broken w ∪ {[websocket]}) w
  end.

(** A run: the events in the order the event loop takes them. *)
Definition run (h : Host) (schedule : list event) (w : World) : World :=
  foldl (λ w ev, step h ev w) w schedule.

(** ** Concrete hosts and worlds, for examples *)

(** A host on which docker and every other collaborator answer. *)
Definition host_ok : Host := {|
  subprocess_run := λ _,
    Returns {| returncode := 0; stdout := "abc"; stderr := "" |};
  psutil_Process := λ _, Returns ();
  proc_terminate := λ _, Returns ();
  proc_wait := λ _, Returns ();
  proc_kill := λ _, Returns ();
  get_system_info := Returns (JDict [("hostname", JStr "tars")]);
  get_system_metrics := Returns (JDict []);
  get_processes := λ _, Returns (JList []);
  get_network_stats := Returns (JDict []);
|}.

(** The same host with [subprocess.run] replaced. *)
Definition with_subprocess (f : list json → outcome CompletedProcess) : Host := {|
  subprocess_run := f;
  psutil_Process := psutil_Process host_ok;
  proc_terminate := proc_terminate host_ok;
  proc_wait := proc_wait host_ok;
  proc_kill := proc_kill host_ok;
  get_system_info := get_system_info host_ok;
  get_system_metrics := get_system_metrics host_ok;
  get_processes := get_processes host_ok;
  get_network_stats := get_network_stats host_ok;
|}.

(** No docker binary: [subprocess.run] cannot find the program. *)
Definition host_no_docker : Host :=
  with_subprocess (λ _,
    Raises (mk_exn FileNotFoundError
              "[Errno 2] No such file or directory: 'docker'")).

(** The binary is there, the daemon is not: [docker --version] answers,
    every other docker command exits with status 1. *)
Definition host_no_daemon : Host :=
  with_subprocess (λ args,
    match args with
    | [JStr "docker"; JStr "--version"] =>
        Returns {| returncode := 0; stdout := "Docker version 24.0.7";
                   stderr := "" |}
    | _ =>
        Returns {| returncode := 1; stdout := "";
                   stderr := "Cannot connect to the Docker daemon at unix:///var/run/docker.sock. Is the docker daemon running?" |}
    end).

(** Client messages. *)
Definition container_action (container_id action : string) : json :=
  JDict [("type", JStr "container_action");
         ("container_id", JStr container_id); ("action", JStr action)].

Definition request (type : string) : json := JDict [("type", JStr type)].

(** ** Predicates on worlds *)

(** A key is registered when it has a channel. *)
Definition registered (connection_id : string) (w : World) : Prop :=
  is_Some (active_connections (manager w) !! connection_id).

(** The key sets of [active_connections] and [subscriptions] agree. *)
Definition registry_inv (w : World) : Prop :=
  dom (active_connections (manager w)) = dom (subscriptions (manager w)).

(** The docker binary is missing: [subprocess.run] of any docker command
    raises [FileNotFoundError]. *)
Definition docker_missing (h : Host) : Prop :=
  ∀ args, ∃ text,
    subprocess_run h (JStr "docker" :: args)
    = Raises (mk_exn FileNotFoundError text).

(** The docker daemon is unreachable: [docker ps] exits with a non-zero
    status and says so on [stderr]. *)
Definition daemon_unreachable (h : Host) : Prop :=
  ∀ args, ∃ result,
    subprocess_run h (JStr "docker" :: JStr "ps" :: args) = Returns result
    ∧ returncode result ≠ 0
    ∧ contains "Cannot connect to the Docker daemon" (stderr result) = true.

(** The frames the server side can write. *)
Inductive server_message : json → Prop :=
| sm_data (type : string) (data : json) :
    type ∈ ["system_info"; "metrics"; "processes_data"; "containers_data";
            "network_stats"] →
    server_message (data_reply type data)
| sm_error (text : string) : server_message (error_reply text)
| sm_killed (pid : json) : server_message (process_kill_result pid true)
| sm_action (container_id action : json) (status text : string) :
    status ∈ ["in_progress"; "success"; "error"] →
    server_message (container_action_result container_id action status text)
| sm_logs (container_id tail : json) (logs : string) :
    server_message
      (JDict [("type", JStr "container_logs"); ("container_id", container_id);
              ("logs", JStr logs); ("tail", tail); ("follow", JBool false)])
| sm_logs_error (container_id : json) (text : string) :
    server_message
      (JDict [("type", JStr "container_logs_error");
              ("container_id", container_id); ("error", JStr text)]).

(** Every frame written so far satisfies [P]. *)
Definition sent_all (P : json → Prop) (w : World) : Prop :=
  Forall (λ f, P f.2) (sent w).

(** Every task created so far has an identity below [next_task]. *)
Definition fresh_ids (w : World) : Prop :=
  ∀ t, is_Some (tasks w !! t) → (t < next_task w)%nat.

(** A property [I] of worlds that the operations of the manager and the
    bookkeeping of the event loop keep, provided the frames written satisfy
    [P]. *)
Class Stable (I : World → Prop) (P : json → Prop) : Prop := {
  stable_record_call c w : I w → I (record_call c w);
  stable_write_frame websocket m w : P m → I w → I (write_frame websocket m w);
  stable_connect websocket connection_id w :
    I w → I (connect websocket connection_id w).2;
  stable_disconnect connection_id w : I w → I (disconnect connection_id w);
  stable_subscribe connection_id topic w :
    I w → I (subscribe connection_id topic w).2;
  stable_unsubscribe connection_id topic w :
    I w → I (unsubscribe connection_id topic w).2;
  stable_record_task connection_id t w :
    I w → I (record_task connection_id t w).2;
  stable_set_progress t p w : I w → I (set_progress t p w);
  stable_create_task c w : I w → I (create_task c w).2;
  stable_set_endpoints es w : I w → I (set_endpoints es w);
  stable_set_broken b w : I w → I (set_broken b w);
}.

(** Computation [m] keeps [I], whether it returns or raises. *)
Definition keeps (I : World → Prop) {A} (m : M A) : Prop :=
  ∀ w, I w → I (m w).2.

(** The message that starts a background task, and the coroutine the task
    runs: the two branches of lines 226-245. *)
Inductive starts_task (connection_id : string) (message : json)
  : coroutine → Prop :=
| starts_container_action container_id action :
    get message "type" = Returns (JStr "container_action") →
    get message "container_id" = Returns container_id →
    get message "action" = Returns action →
    truthy container_id = true →
    truthy action = true →
    starts_task connection_id message
      (handle_container_action_coro connection_id container_id action)
| starts_get_container_logs container_id tail follow :
    get message "type" = Returns (JStr "get_container_logs") →
    get message "container_id" = Returns container_id →
    get_default message "tail" (JInt 100) = Returns tail →
    get_default message "follow" (JBool false) = Returns follow →
    truthy container_id = true →
    starts_task connection_id message
      (stream_container_logs_coro connection_id container_id tail follow).

(** The terminal message of a container action: [success] with the text
    the docker call returned, or [error] with the text of its exception. *)
Definition terminal_message (h : Host) (container_id action : json) : json :=
  match execute_container_action h container_id action with
  | Returns result_msg =>
      container_action_result container_id action "success" result_msg
  | Raises e =>
      container_action_result container_id action "error" (exn_str e)
  end.

(** The [status] field of a server message, and whether it marks the
    message as terminal. *)
Definition status_of (m : json) : option string :=
  match get m "status" with
  | Returns (JStr status) => Some status
  | _ => None
  end.

Definition is_terminal (m : json) : bool :=
  bool_decide (status_of m ∈ [Some "success"; Some "error"]).

(** Task [t] is pending: created, not done, and not asked to cancel. *)
Definition running (t : Task) (w : World) : Prop :=
  ∃ ts, tasks w !! t = Some ts
        ∧ is_done (at_pc ts) = false ∧ must_cancel ts = false.

(** Session ["c1"] is open on socket 1. *)
Definition world_c1 : World := open_endpoint 1%nat "c1" initial_world.

(** ... and has asked for a container restart: task 0 is recorded for it. *)
Definition world_c1_busy : World :=
  step host_ok (Receive 1%nat (Json (container_action "abc" "restart")))
       world_c1.

(** ... and then its transport broke. *)
Definition world_c1_broken : World := step host_ok (Break 1%nat) world_c1_busy.

(** Session ["c1"] asks for a restart; its task starts and is suspended in
    the send of its [in_progress] message. *)
Definition world_restarting : World :=
  run host_ok
    [Open 1%nat "c1";
     Receive 1%nat (Json (container_action "abc" "restart"));
     Resume 0%nat]
    initial_world.

(** ** Vocabulary of the further properties *)

(** The request types answered at once, each with the type of its reply
    (lines 154-224 and 247-299). *)
Definition reply_types : list (string * string) :=
  [("get_system_info", "system_info"); ("get_metrics", "metrics");
   ("get_processes", "processes_data");
   ("kill_process", "process_kill_result");
   ("get_containers", "containers_data");
   ("get_network_stats", "network_stats")].

(** Every request type [dispatch] has a branch for. *)
Definition known_types : list string :=
  ["subscribe"; "unsubscribe"; "container_action"; "get_container_logs"]
  ++ reply_types.*1.

(** A list or a dict: what [set.add] and [set.discard] refuse. *)
Definition unhashable (v : json) : bool :=
  match v with
  | JList _ | JDict _ => true
  | _ => false
  end.

(** The frames on which a turn of the receive loop raises: the peer closed,
    the frame is not a text frame, the text is not JSON, the JSON is not an
    object, or it is a [subscribe] or [unsubscribe] of a session that has a
    subscription set, with a topic that is a non-empty list or dict. *)
Definition ends_session (connection_id : string) (f : frame) (w : World)
  : bool :=
  match f with
  | Closed | Binary | Garbage _ => true
  | Json (JDict fields) =>
      let type := default JNull (assoc "type" fields) in
      let topic := default JNull (assoc "topic" fields) in
      (json_eqb_str type "subscribe" || json_eqb_str type "unsubscribe")
      && truthy topic && unhashable topic
      && bool_decide (is_Some (subscriptions (manager w) !! connection_id))
  | Json _ => true
  end.

(** The session a coroutine pushes to. *)
Definition coroutine_key (c : coroutine) : string :=
  match c with
  | handle_container_action_coro connection_id _ _ => connection_id
  | stream_container_logs_coro connection_id _ _ _ => connection_id
  end.


(** Two sockets are open under the same key ["c1"]. *)
Definition world_same_key : World :=
  run host_ok [Open 1%nat "c1"; Open 2%nat "c1"] initial_world.

(** ** The rest of [src/utils/linux_utils.py] *)

(** [sorted(l, key=key, reverse=True)]: descending by [key], and entries
    with equal keys stay in the order they had, since Python's sort is
    stable also when reversed.  [lt] is the strict order of the keys. *)
Section sorted.
Context {A K : Type} (lt : K → K → Prop) `{!RelDecision lt} (key : A → K).

Fixpoint insert_reverse (x : A) (l : list A) : list A :=
  match l with
  | [] => [x]
  | y :: l' =>
      if decide (lt (key x) (key y)) then y :: insert_reverse x l'
      else x :: l
  end.

Definition sorted_reverse (l : list A) : list A := foldr insert_reverse [] l.
End sorted.

(** The functions of the module that the websocket code does not call, or
    calls only through a [Host].  They live in a module of their own, as
    [get_processes] is also the name of a field of [Host]. *)
Module linux_utils.

(** [proc.info] as [psutil.process_iter] fills it for the six attributes
    asked for: an attribute [psutil] was denied is [None].  [memory_info]
    is kept as its [rss] field, and a CPU percentage, a Python float, as
    the rational number it stands for. *)
Record proc_info : Type := {
  info_pid : Z;
  info_username : option string;
  info_name : option string;
  info_cmdline : option (list string);
  info_cpu_percent : option Qc;
  info_memory_info : option Z;
}.

(** An entry of the list [get_processes] returns. *)
Record process : Type := {
  pid : Z;
  user : string;
  cmd : string;
  cpu_percent : Qc;
  mem_bytes : Z;
}.

(** [s or dflt] for an optional string: [None] and [""] are falsy. *)
Definition or_else (s : option string) (dflt : string) : string :=
  match s with
  | Some (String _ _ as s') => s'
  | _ => dflt
  end.

(** The dict the loop body appends for one process, lines 87-102. *)
Definition to_process (info : proc_info) : process :=
  let cmd :=
    match info_cmdline info with
    | Some ((_ :: _) as cmdline) => Some (String.concat " " cmdline)
    | _ => info_name info
    end in
  {| pid := info_pid info;
     user := or_else (info_username info) "unknown";
     cmd := match cmd with
            | Some (String _ _ as c) => String.substring 0 100 c
            | _ => "unknown"
            end;
     cpu_percent := default 0%Qc (info_cpu_percent info);
     mem_bytes := default 0 (info_memory_info info) |}.

(** The first loop, lines 85-110: it stops at 2000 entries. *)
Fixpoint collect (procs : list proc_info) (all_processes : list process)
  : list process :=
  match procs with
  | [] => all_processes
  | info :: rest =>
      let all_processes := (all_processes ++ [to_process info])%list in
      if 2000 <=? Z.of_nat (length all_processes) then all_processes
      else collect rest all_processes
  end.

(** The second loop, lines 128-133: the length is tested after an entry
    was appended. *)
Fixpoint combine (limit : Z) (procs combined : list process)
    (seen_pids : gset Z) : list process :=
  match procs with
  | [] => combined
  | proc :: rest =>
      if decide (pid proc ∈ seen_pids) then combine limit rest combined seen_pids
      else
        let combined := (combined ++ [proc])%list in
        let seen_pids := seen_pids ∪ {[pid proc]} in
        if limit <=? Z.of_nat (length combined) then combined
        else combine limit rest combined seen_pids
  end.

(** [limit] in [limit <= 20], for the values of [json]: an integer, or a
    bool, which is the integer 0 or 1; [None], a string, a list and a dict
    cannot be compared with an integer.  (A float can: [json] has none.) *)
Definition as_int (v : json) : outcome Z :=
  match v with
  | JInt z => Returns z
  | JBool b => Returns (if b then 1 else 0)
  | _ => Raises (mk_exn TypeError
                   "'<=' not supported between instances of this type and 'int'")
  end.

(** [get_processes], lines 80-142.  [process_iter] is what iterating
    [psutil.process_iter] gives: the processes, or an exception. *)
Definition get_processes (process_iter : outcome (list proc_info))
    (limit : json) : list process :=
  match
    process_iter ≫= λ procs,
    let all_processes := collect procs [] in
    as_int limit ≫= λ limit,
    (* For default limit (20), return top 10 CPU + top 10 Memory *)
    if limit <=? 20 then
      let cpu_sorted := sorted_reverse Qclt cpu_percent all_processes in
      let mem_sorted := sorted_reverse Z.lt mem_bytes all_processes in
      let top_cpu := take 10 cpu_sorted in
      let top_mem := take 10 mem_sorted in
      Returns (combine limit (top_cpu ++ top_mem)%list [] ∅)
    else
      (* For higher limits, return top processes by CPU *)
      let sorted_processes := sorted_reverse Qclt cpu_percent all_processes in
      Returns (take (Z.to_nat limit) sorted_processes)
  with
  | Returns processes => processes
  | Raises _ => (* except Exception: return [] *) []
  end.

(** A computation that runs commands: its outcome, and the argument lists
    it handed to [subprocess.run], in the order of the calls. *)
Definition logged (A : Type) : Type := outcome A * list (list json).

Definition logged_ret {A} (a : A) : logged A := (Returns a, []).
Definition logged_raise {A} (e : exn) : logged A := (Raises e, []).
Definition logged_run (h : Host) (args : list json) : logged CompletedProcess :=
  (subprocess_run h args, [args]).

Definition logged_bind {A B} (m : logged A) (k : A → logged B) : logged B :=
  match m.1 with
  | Returns a => ((k a).1, (m.2 ++ (k a).2)%list)
  | Raises e => (Raises e, m.2)
  end.

(** [try: m / except Exception as e: handler e] *)
Definition logged_catch {A} (m : logged A) (handler : exn → logged A)
  : logged A :=
  match m.1 with
  | Returns a => m
  | Raises e => ((handler e).1, (m.2 ++ (handler e).2)%list)
  end.

(** [execute_power_action], lines 267-301.  The [print] calls and the
    [time.sleep(3)] between the two commands are left out. *)
Definition execute_power_action (h : Host) (action : string) : logged string :=
  logged_catch
    (if negb (bool_decide (action ∈ ["reboot"; "shutdown"])) then
       logged_raise (Exception "Invalid power action")
     else
       logged_bind
         ((* First, stop all TARS containers gracefully: what the command
             does is only printed *)
          logged_catch
            (logged_bind
               (logged_run h [JStr "/root/tars"; JStr "stop"; JStr "all"])
               (λ _, logged_ret ()))
            (λ _, logged_ret ()))
         (λ _,
          if String.eqb action "reboot" then
            logged_bind
              (logged_run h [JStr "shutdown"; JStr "-r"; JStr "+0"])
              (λ _, logged_ret
                      "TARS containers stopped. System rebooting in 10 seconds")
          else
            (* elif action == "shutdown": the only other action that passes
               the check above *)
            logged_bind
              (logged_run h [JStr "shutdown"; JStr "-h"; JStr "+0"])
              (λ _, logged_ret
                      "TARS containers stopped. System shutting down in 10 seconds")))
    (λ e, logged_raise
            match exn_class e with
            | TimeoutExpired => Exception "Power command timed out"
            | FileNotFoundError => Exception "shutdown command not found"
            | _ => Exception ("Failed to execute power action: " +:+ exn_str e)
            end).

(** The files the module looks at: [os.path.exists], [os.path.isdir] and
    [os.listdir]. *)
Record Files : Type := {
  path_exists : string → bool;
  path_isdir : string → bool;
  listdir : string → outcome (list string);
}.

Fixpoint ends_with_sep (path : string) : bool :=
  match path with
  | EmptyString => false
  | String c EmptyString => Ascii.eqb c "/"
  | String _ path' => ends_with_sep path'
  end.

(** [os.path.join(a, *p)] of [posixpath]. *)
Definition join (a : string) (p : list string) : string :=
  foldl (λ path b,
           if String.prefix "/" b then b
           else if String.eqb path "" || ends_with_sep path then path +:+ b
           else path +:+ "/" +:+ b)
        a p.











(** [execute_tars_app_action], lines 575-604. *)
Definition execute_tars_app_action (fs : Files) (h : Host)
    (base_dir app_name action : string) : outcome string :=
  outcome_catch
    (if negb (bool_decide (action ∈ ["start"; "stop"; "restart"])) then
       Raises (Exception "Invalid app action")
     else
       let tars_script := join base_dir ["tars"] in
       if negb (path_exists fs tars_script) then
         Raises (Exception "TARS script not found")
       else
         subprocess_run h [JStr tars_script; JStr action; JStr app_name]
           ≫= λ result,
         if negb (returncode result =? 0) then
           Raises (Exception ("TARS " +:+ action +:+ " command failed: "
                              +:+ stderr result))
         else
           Returns ("Application " +:+ app_name +:+ " " +:+ action
                    +:+ "ed successfully"))
    (λ e, match exn_class e with
          | TimeoutExpired => Raises (Exception "TARS command timed out")
          | FileNotFoundError => Raises (Exception "TARS script not found")
          | _ => Raises (Exception ("Failed to " +:+ action
                                    +:+ " application: " +:+ exn_str e))
          end).




End linux_utils.

(** ** The HTTP handlers of [app.py], [src/api/processes.py] and
    [src/api/power.py] *)

(** What a handler raises: an exception of the modules above, or FastAPI's
    [HTTPException], which is an [Exception] as well, so that an [except
    Exception] clause catches it. *)
Inductive raised : Type :=
| Python (e : exn)
| HTTPException (status_code : Z) (detail : string).

(** What a handler does: it returns the body of a 200 response, or raises.
    FastAPI answers a raised [HTTPException] with its status and detail. *)
Inductive handled (A : Type) : Type :=
| Responds (a : A)
| Throws (r : raised).
Arguments Responds {A} a.
Arguments Throws {A} r.

Definition of_outcome {A} (x : outcome A) : handled A :=
  match x with
  | Returns a => Responds a
  | Raises e => Throws (Python e)
  end.

Definition handled_bind {A B} (x : handled A) (k : A → handled B) : handled B :=
  match x with
  | Responds a => k a
  | Throws r => Throws r
  end.

(** [try: body / except Exception as e: handler e] *)
Definition handled_catch {A} (body : handled A) (handler : raised → handled A)
  : handled A :=
  match body with
  | Responds a => Responds a
  | Throws r => handler r
  end.

Section handlers.
(** [str(e)] for an [HTTPException] of the given status and detail: it
    depends on the version of Starlette. *)
Variable http_str : Z → string → string.

Definition str_raised (r : raised) : string :=
  match r with
  | Python e => exn_str e
  | HTTPException status_code detail => http_str status_code detail
  end.

(** [kill_process_by_pid] of [src/api/processes.py], lines 62-75. *)
Definition kill_process_by_pid (h : Host) (pid : Z) : handled json :=
  handled_catch
    (handled_bind (of_outcome (kill_process h (JInt pid))) (λ success,
     if success : bool then
       Responds (JDict [("status", JStr "ok");
                        ("message",
                         JStr ("Process " +:+ pretty pid +:+ " terminated"))])
     else Throws (HTTPException 500 "Failed to kill process")))
    (λ e, Throws (HTTPException 400 (str_raised e))).

(** [execute_power_action_endpoint] of [src/api/power.py], lines 11-21, with
    the commands [execute_power_action] ran. *)
Definition execute_power_action_endpoint (h : Host) (action : string)
  : handled json * list (list json) :=
  let r := linux_utils.execute_power_action h action in
  (handled_catch
     (handled_bind (of_outcome r.1) (λ message,
      Responds (JDict [("status", JStr "ok"); ("message", JStr message)])))
     (λ e, Throws (HTTPException 400 (str_raised e))),
   r.2).
End handlers.

Module app.
Section handlers.
Variable http_str : Z → string → string.

(** [kill_process] of [app.py], lines 83-104. *)
Definition kill_process (h : Host) (pid : Z) : handled json :=
  handled_catch
    (handled_bind (of_outcome (kill_process h (JInt pid)))
       (λ success,
        if success : bool then
          Responds (JDict [("status", JStr "ok");
                           ("message",
                            JStr ("Process " +:+ pretty pid
                                  +:+ " terminated"))])
        else
          Responds (JDict [("status", JStr "error");
                           ("message", JStr "Failed to kill process")])))
    (λ e, Responds (JDict [("status", JStr "error");
                           ("message", JStr (str_raised http_str e))])).

(** The sample data of [list_containers]. *)
Definition sample_containers : json :=
  JList
    [JDict [("id", JStr "a87ec4d5f2b1"); ("name", JStr "tars-db");
            ("image", JStr "postgres:15"); ("status", JStr "running");
            ("ports", JStr "5432:5432"); ("full_status", JStr "Up 2 hours")];
     JDict [("id", JStr "b23fd1c8e9a4"); ("name", JStr "tars-redis");
            ("image", JStr "redis:7-alpine"); ("status", JStr "running");
            ("ports", JStr "6379:6379"); ("full_status", JStr "Up 1 hour")]].

(** [list_containers] of [app.py], lines 107-134. *)
Definition list_containers (h : Host) : handled json :=
  handled_catch
    (of_outcome (get_docker_containers h))
    (λ _, (* Return sample data if real data fails *)
          Responds sample_containers).

(** [execute_container_action] of [app.py], lines 168-180. *)
Definition execute_container_action (h : Host) (container_id action : string)
  : handled json :=
  handled_catch
    (if negb (bool_decide (action ∈ ["start"; "stop"; "restart"])) then
       Throws (HTTPException 400 "Invalid action. Use start, stop, or restart")
     else
       handled_bind
         (of_outcome
            (execute_container_action h (JStr container_id) (JStr action)))
         (λ result, Responds (JDict [("message", JStr result)])))
    (λ e, Throws (HTTPException 500 (str_raised http_str e))).

(** [execute_app_action] of [app.py], lines 195-207. *)
Definition execute_app_action (fs : linux_utils.Files) (h : Host)
    (base_dir app_name action : string) : handled json :=
  handled_catch
    (if negb (bool_decide (action ∈ ["start"; "stop"; "restart"])) then
       Throws (HTTPException 400 "Invalid action. Use start, stop, or restart")
     else
       handled_bind
         (of_outcome
            (linux_utils.execute_tars_app_action fs h base_dir app_name action))
         (λ result, Responds (JDict [("message", JStr result)])))
    (λ e, Throws (HTTPException 500 (str_raised http_str e))).

End handlers.
End app.

(** ** Concrete processes, files and hosts, for examples *)

(** Three processes as [psutil] reports them: the second has no user name
    and no command line, the third is a kernel thread with neither command
    line nor CPU figure. *)
Definition procs_example : list linux_utils.proc_info :=
  [{| linux_utils.info_pid := 1;
      linux_utils.info_username := Some "root";
      linux_utils.info_name := Some "init";
      linux_utils.info_cmdline := Some ["/sbin/init"; "splash"];
      linux_utils.info_cpu_percent := Some (Q2Qc (1 # 2));
      linux_utils.info_memory_info := Some 10 |};
   {| linux_utils.info_pid := 2;
      linux_utils.info_username := None;
      linux_utils.info_name := Some "sh";
      linux_utils.info_cmdline := Some [];
      linux_utils.info_cpu_percent := Some (Q2Qc (3 # 2));
      linux_utils.info_memory_info := Some 5 |};
   {| linux_utils.info_pid := 3;
      linux_utils.info_username := Some "root";
      linux_utils.info_name := Some "kthreadd";
      linux_utils.info_cmdline := None;
      linux_utils.info_cpu_percent := None;
      linux_utils.info_memory_info := None |}].


(** [docker ps] lists one container whose health check fails. *)
Definition host_unhealthy : Host :=
  with_subprocess (λ _,
    Returns {| returncode := 0;
               stdout := String.concat (String tab EmptyString)
                           ["abc"; "web"; "nginx"; "Up 2 hours (unhealthy)";
                            "80/tcp"];
               stderr := "" |}).

(** Starlette's rendering of an [HTTPException] since it has [__str__]. *)
Definition starlette_str (status_code : Z) (detail : string) : string :=
  pretty status_code +:+ ": " +:+ detail.

(** * Properties *)

(** ** The registry *)

Section registry.
Implicit Types (w : World) (connection_id : string) (message topic : json).

Lemma disconnect_active connection_id w :
  active_connections (manager (disconnect connection_id w))
  = delete connection_id (active_connections (manager w)).
Proof. unfold disconnect. by destruct (background_tasks _ !! _). Qed.

Lemma disconnect_subscriptions connection_id w :
  subscriptions (manager (disconnect connection_id w))
  = delete connection_id (subscriptions (manager w)).
Proof. unfold disconnect. by destruct (background_tasks _ !! _). Qed.

Lemma disconnect_background_tasks connection_id w :
  background_tasks (manager (disconnect connection_id w))
  = delete connection_id (background_tasks (manager w)).
Proof. unfold disconnect. by destruct (background_tasks _ !! _). Qed.

Lemma disconnect_tasks connection_id w :
  tasks (disconnect connection_id w)
  = match background_tasks (manager w) !! connection_id with
    | Some t => alter request_cancel t (tasks w)
    | None => tasks w
    end.
Proof. unfold disconnect. by destruct (background_tasks _ !! _). Qed.

Lemma disconnect_sent connection_id w :
  sent (disconnect connection_id w) = sent w.
Proof. unfold disconnect. by destruct (background_tasks _ !! _). Qed.

Lemma disconnect_not_registered connection_id w :
  ¬ registered connection_id (disconnect connection_id w).
Proof.
  unfold registered. rewrite disconnect_active, lookup_delete_eq.
  by intros [? ?].
Qed.

Lemma send_unregistered message connection_id w :
  active_connections (manager w) !! connection_id = None →
  send_personal_message message connection_id w
  = (Returns (), record_call (Push connection_id message) w).
Proof.
  intros Hnone. unfold send_personal_message, bind, modify. simpl.
  by rewrite Hnone.
Qed.

(** C3.  A [Send] to a key that is not registered, whether it never was or
    was registered and then unregistered by [disconnect], returns without
    raising and changes nothing but the log of attempted pushes: no frame
    is written, and the manager and the tasks stay as they were. *)
Theorem send_to_unregistered_is_noop message connection_id w :
  (¬ registered connection_id w →
     send_personal_message message connection_id w
     = (Returns (), record_call (Push connection_id message) w))
  ∧ send_personal_message message connection_id
      (disconnect connection_id w)
    = (Returns (),
       record_call (Push connection_id message)
         (disconnect connection_id w)).
Proof.
  split.
  - intros Hnot. apply send_unregistered.
    apply eq_None_not_Some, Hnot.
  - apply send_unregistered.
    by rewrite disconnect_active, lookup_delete_eq.
Qed.

Lemma send_broken message connection_id websocket w :
  active_connections (manager w) !! connection_id = Some websocket →
  websocket ∈ broken w →
  send_personal_message message connection_id w
  = (Returns (),
     disconnect connection_id
       (record_call (Push connection_id message) w)).
Proof.
  intros Hsome Hbroken.
  unfold send_personal_message, bind, modify. simpl. rewrite Hsome.
  unfold try_except, send_text. simpl.
  by rewrite bool_decide_eq_true_2.
Qed.

Lemma send_delivered message connection_id websocket w :
  active_connections (manager w) !! connection_id = Some websocket →
  websocket ∉ broken w →
  send_personal_message message connection_id w
  = (Returns (),
     write_frame websocket message
       (record_call (Push connection_id message) w)).
Proof.
  intros Hsome Hbroken.
  unfold send_personal_message, bind, modify. simpl. rewrite Hsome.
  unfold try_except, send_text. simpl.
  by rewrite bool_decide_eq_false_2.
Qed.

(** C4.  When the transport write of [Send] fails for a registered key,
    [Send] still returns normally, and what it did is [disconnect] for
    that key: the channel and the subscription set of the key are gone,
    and the task recorded for the key, if any, has been asked to cancel
    and its handle removed.  No frame is written. *)
Theorem send_failure_unregisters message connection_id websocket w :
  active_connections (manager w) !! connection_id = Some websocket →
  websocket ∈ broken w →
  let r := send_personal_message message connection_id w in
  r = (Returns (),
       disconnect connection_id
         (record_call (Push connection_id message) w))
  ∧ active_connections (manager r.2) !! connection_id = None
  ∧ subscriptions (manager r.2) !! connection_id = None
  ∧ background_tasks (manager r.2) !! connection_id = None
  ∧ (∀ t, background_tasks (manager w) !! connection_id = Some t →
          tasks r.2 !! t = request_cancel <$> tasks w !! t)
  ∧ sent r.2 = sent w.
Proof.
  intros Hsome Hbroken r. subst r.
  rewrite (send_broken _ _ _ _ Hsome Hbroken). cbn [snd].
  rewrite disconnect_active, disconnect_subscriptions,
    disconnect_background_tasks, disconnect_tasks, disconnect_sent.
  rewrite !lookup_delete_eq. simpl.
  repeat split; try done.
  intros t Ht. rewrite Ht. by rewrite lookup_alter_eq.
Qed.

(** C8.  [connect] with a handshake that goes through, on a key that may
    already be registered: the channel entry of the key is now the new
    websocket, whatever it was; its subscription set is empty, whatever
    it was; no exception is raised; and the recorded background tasks and
    the state of every task are as before: the task recorded for the key
    is neither cancelled nor removed. *)
Theorem connect_overwrites websocket connection_id w :
  websocket ∉ broken w →
  let r := connect websocket connection_id w in
  r.1 = Returns ()
  ∧ active_connections (manager r.2) !! connection_id = Some websocket
  ∧ subscriptions (manager r.2) !! connection_id = Some ∅
  ∧ background_tasks (manager r.2) = background_tasks (manager w)
  ∧ tasks r.2 = tasks w.
Proof.
  intros Hok r. subst r.
  unfold connect, bind, accept, modify.
  rewrite bool_decide_eq_false_2 by done. simpl.
  by rewrite !lookup_insert_eq.
Qed.
Lemma set_manager_eta w :
  set_manager
    {| active_connections := active_connections (manager w);
       subscriptions := subscriptions (manager w);
       background_tasks := background_tasks (manager w) |} w
  = w.
Proof. by destruct w as [[]]. Qed.

Lemma subscribe_registered connection_id (t : string) topics w :
  subscriptions (manager w) !! connection_id = Some topics →
  subscribe connection_id (JStr t) w
  = (Returns (),
     set_manager
       {| active_connections := active_connections (manager w);
          subscriptions :=
            <[connection_id := topics ∪ {[HStr t]}]>
              (subscriptions (manager w));
          background_tasks := background_tasks (manager w) |} w).
Proof. intros Hsome. unfold subscribe. by rewrite Hsome. Qed.

Lemma unsubscribe_registered connection_id (t : string) topics w :
  subscriptions (manager w) !! connection_id = Some topics →
  unsubscribe connection_id (JStr t) w
  = (Returns (),
     set_manager
       {| active_connections := active_connections (manager w);
          subscriptions :=
            <[connection_id := topics ∖ {[HStr t]}]>
              (subscriptions (manager w));
          background_tasks := background_tasks (manager w) |} w).
Proof. intros Hsome. unfold unsubscribe. by rewrite Hsome. Qed.

(** C6.  For a key that has a subscription set (a registered session, by
    the invariant of C10) and a topic string [t]: after subscribing to
    [t] the set is the old one with [t] added; subscribing a second time
    changes nothing at all; the set then holds exactly one entry for [t],
    and is of size 1 when the session had no subscription before;
    unsubscribing from a [t] that is not in the set changes nothing.  For
    a key without a subscription set, [subscribe] and [unsubscribe] change
    nothing.  None of these calls raises. *)
Theorem subscription_set_laws connection_id (t : string) w :
  (∀ topics, subscriptions (manager w) !! connection_id = Some topics →
     let once := subscribe connection_id (JStr t) w in
     let twice := subscribe connection_id (JStr t) once.2 in
     once.1 = Returns ()
     ∧ subscriptions (manager once.2) !! connection_id
       = Some (topics ∪ {[HStr t]})
     ∧ twice = once
     ∧ size (filter (λ k, k = HStr t) (topics ∪ {[HStr t]})) = 1%nat
     ∧ (topics = ∅ → size (topics ∪ {[HStr t]}) = 1%nat)
     ∧ (HStr t ∉ topics →
        unsubscribe connection_id (JStr t) w = (Returns (), w)))
  ∧ (subscriptions (manager w) !! connection_id = None →
     subscribe connection_id (JStr t) w = (Returns (), w)
     ∧ unsubscribe connection_id (JStr t) w = (Returns (), w)).
Proof.
  split.
  - intros topics Hsome once twice. subst twice once.
    rewrite (subscribe_registered _ _ _ _ Hsome). cbn [fst snd].
    split; [done|]. split; [cbn; by rewrite lookup_insert_eq|].
    split; [|split; [|split]].
    + erewrite subscribe_registered
        by (cbn; by rewrite lookup_insert_eq).
      cbn. rewrite insert_insert_eq.
      by replace (topics ∪ {[HStr t]} ∪ {[HStr t]})
        with (topics ∪ {[HStr t]}) by set_solver.
    + replace (filter (λ k, k = HStr t) (topics ∪ {[HStr t]}))
        with ({[HStr t]} : gset hashable); [apply size_singleton|].
      apply set_eq. intros k. rewrite elem_of_filter. set_solver.
    + intros ->. rewrite (left_id_L ∅ (∪)). apply size_singleton.
    + intros Hnotin. rewrite (unsubscribe_registered _ _ _ _ Hsome).
      replace (topics ∖ {[HStr t]}) with topics by set_solver.
      by rewrite (insert_id _ _ _ Hsome), set_manager_eta.
  - intros Hnone. unfold subscribe, unsubscribe. by rewrite Hnone.
Qed.

Lemma registry_inv_disconnect connection_id w :
  registry_inv w → registry_inv (disconnect connection_id w).
Proof.
  unfold registry_inv. intros Hinv.
  rewrite disconnect_active, disconnect_subscriptions.
  by rewrite !dom_delete_L, Hinv.
Qed.

Lemma registry_inv_connect websocket connection_id w :
  registry_inv w → registry_inv (connect websocket connection_id w).2.
Proof.
  unfold registry_inv, connect, bind, accept, modify. intros Hinv.
  case_bool_decide; cbn; [done|].
  by rewrite !dom_insert_L, Hinv.
Qed.

Lemma registry_inv_subscribe connection_id topic w :
  registry_inv w → registry_inv (subscribe connection_id topic w).2.
Proof.
  unfold registry_inv, subscribe. intros Hinv.
  destruct (subscriptions (manager w) !! connection_id) as [topics|] eqn:E;
    [|done].
  unfold bind, lift, modify. destruct (hash_key topic); cbn; [|done].
  by rewrite dom_insert_lookup_L.
Qed.

Lemma registry_inv_unsubscribe connection_id topic w :
  registry_inv w → registry_inv (unsubscribe connection_id topic w).2.
Proof.
  unfold registry_inv, unsubscribe. intros Hinv.
  destruct (subscriptions (manager w) !! connection_id) as [topics|] eqn:E;
    [|done].
  unfold bind, lift, modify. destruct (hash_key topic); cbn; [|done].
  by rewrite dom_insert_lookup_L.
Qed.

Lemma registry_inv_send message connection_id w :
  registry_inv w →
  registry_inv (send_personal_message message connection_id w).2.
Proof.
  intros Hinv.
  destruct (active_connections (manager w) !! connection_id)
    as [websocket|] eqn:E.
  - destruct (decide (websocket ∈ broken w)) as [Hb|Hb].
    + rewrite (send_broken _ _ _ _ E Hb). cbn [snd].
      by apply registry_inv_disconnect.
    + by rewrite (send_delivered _ _ _ _ E Hb).
  - by rewrite (send_unregistered _ _ _ E).
Qed.

(** C10.  Each operation of [ConnectionManager] keeps the key set of
    [active_connections] equal to the key set of [subscriptions], whether
    it returns or raises: [connect], [disconnect], [subscribe],
    [unsubscribe] and [send_personal_message]. *)
Theorem operations_preserve_registry_inv
    websocket connection_id topic message w :
  registry_inv w →
  registry_inv (connect websocket connection_id w).2
  ∧ registry_inv (disconnect connection_id w)
  ∧ registry_inv (subscribe connection_id topic w).2
  ∧ registry_inv (unsubscribe connection_id topic w).2
  ∧ registry_inv (send_personal_message message connection_id w).2.
Proof.
  intros Hinv.
  repeat split;
    auto using registry_inv_connect, registry_inv_disconnect,
      registry_inv_subscribe, registry_inv_unsubscribe, registry_inv_send.
Qed.
End registry.

Lemma send_to_unregistered_is_noop_witness :
  ¬ registered "ghost" world_c1
  ∧ send_personal_message (request "ping") "ghost" world_c1
    = (Returns (), record_call (Push "ghost" (request "ping")) world_c1).
Proof.
  assert (Hnot : ¬ registered "ghost" world_c1).
  { intros [websocket H]. vm_compute in H. discriminate H. }
  split; [exact Hnot|].
  exact (proj1 (send_to_unregistered_is_noop (request "ping") "ghost" world_c1)
               Hnot).
Defined.

Lemma send_failure_unregisters_witness :
  let r := send_personal_message (request "ping") "c1" world_c1_broken in
  r.1 = Returns ()
  ∧ active_connections (manager r.2) !! "c1" = None
  ∧ subscriptions (manager r.2) !! "c1" = None
  ∧ background_tasks (manager r.2) !! "c1" = None
  ∧ must_cancel <$> tasks r.2 !! 0%nat = Some true
  ∧ sent r.2 = [].
Proof.
  assert (Hsome : active_connections (manager world_c1_broken) !! "c1"
                  = Some 1%nat) by reflexivity.
  assert (Hbroken : 1%nat ∈ broken world_c1_broken).
  { apply elem_of_union_r, elem_of_singleton. reflexivity. }
  destruct (send_failure_unregisters (request "ping") "c1" 1%nat
              world_c1_broken Hsome Hbroken)
    as (Hr & Hactive & Hsubs & Hback & Htask & Hsent).
  intros r. subst r.
  split; [by rewrite Hr|].
  split; [exact Hactive|]. split; [exact Hsubs|]. split; [exact Hback|].
  split; [|exact Hsent].
  by rewrite (Htask 0%nat eq_refl).
Defined.

Lemma connect_overwrites_witness :
  let r := connect 2%nat "c1" world_c1_busy in
  active_connections (manager world_c1_busy) !! "c1" = Some 1%nat
  ∧ r.1 = Returns ()
  ∧ active_connections (manager r.2) !! "c1" = Some 2%nat
  ∧ subscriptions (manager r.2) !! "c1" = Some ∅
  ∧ background_tasks (manager r.2) !! "c1" = Some 0%nat
  ∧ must_cancel <$> tasks r.2 !! 0%nat = Some false.
Proof.
  assert (Hok : 2%nat ∉ broken world_c1_busy).
  { apply not_elem_of_empty. }
  destruct (connect_overwrites 2%nat "c1" world_c1_busy Hok)
    as (Hr & Hactive & Hsubs & Hback & Htasks).
  intros r. subst r.
  split; [reflexivity|]. split; [exact Hr|]. split; [exact Hactive|].
  split; [exact Hsubs|].
  split; [by rewrite Hback|by rewrite Htasks].
Defined.

Lemma subscription_set_laws_witness :
  (let once := subscribe "c1" (JStr "metrics") world_c1 in
   let twice := subscribe "c1" (JStr "metrics") once.2 in
   subscriptions (manager once.2) !! "c1" = Some (∅ ∪ {[HStr "metrics"]})
   ∧ twice = once
   ∧ unsubscribe "c1" (JStr "metrics") world_c1 = (Returns (), world_c1))
  ∧ subscribe "ghost" (JStr "metrics") world_c1 = (Returns (), world_c1)
  ∧ unsubscribe "ghost" (JStr "metrics") world_c1 = (Returns (), world_c1).
Proof.
  destruct (subscription_set_laws "c1" "metrics" world_c1) as [Hreg _].
  destruct (subscription_set_laws "ghost" "metrics" world_c1) as [_ Hnot].
  specialize (Hreg ∅ eq_refl).
  destruct Hreg as (_ & Hset & Htwice & _ & _ & Hunsub).
  specialize (Hnot eq_refl).
  split; [|exact Hnot].
  split; [exact Hset|]. split; [exact Htwice|].
  apply Hunsub, not_elem_of_empty.
Defined.

Lemma operations_preserve_registry_inv_witness :
  registry_inv world_c1_busy
  ∧ registry_inv (connect 2%nat "c1" world_c1_busy).2
  ∧ registry_inv (disconnect "c1" world_c1_busy)
  ∧ registry_inv (subscribe "c1" (JStr "metrics") world_c1_busy).2
  ∧ registry_inv (unsubscribe "c1" (JStr "metrics") world_c1_busy).2
  ∧ registry_inv (send_personal_message (request "ping") "c1" world_c1_busy).2.
Proof.
  assert (Hinv : registry_inv world_c1_busy) by reflexivity.
  split; [exact Hinv|].
  exact (operations_preserve_registry_inv 2%nat "c1" (JStr "metrics")
           (request "ping") world_c1_busy Hinv).
Defined.

(** ** The collaborators *)

Section collaborators.
Implicit Types (h : Host) (pid : json).

Lemma kill_process_true h pid b : kill_process h pid = Returns b → b = true.
Proof.
  unfold kill_process, catch_class, outcome_catch, mbind, outcome_mbind,
    outcome_bind.
  destruct (psutil_Process h pid) as [[]|e1];
    [|by destruct (exn_class e1)].
  destruct (proc_terminate h pid) as [[]|e2];
    [|by destruct (exn_class e2)].
  destruct (proc_wait h pid) as [[]|e3]; [congruence|].
  case_bool_decide.
  - destruct (proc_kill h pid) as [[]|e4]; [congruence|].
    by destruct (exn_class e4).
  - by destruct (exn_class e3).
Qed.

(** On the websocket an exception of [get_docker_containers] becomes an
    [error] reply: this is the [except] clause of the [get_containers]
    branch, lines 219-224. *)
Lemma get_containers_raises h connection_id e w :
  get_docker_containers h = Raises e →
  dispatch h connection_id (request "get_containers") w
  = send_personal_message
      (error_reply ("Failed to fetch containers: " +:+ exn_str e))
      connection_id w.
Proof.
  intros Hraises.
  unfold dispatch, bind, lift, reply, try_except. cbn -[send_personal_message].
  by rewrite Hraises.
Qed.

(** C7, as the code has it.  When the container runtime is unavailable,
    [get_docker_containers] as callers see it (the second definition of the
    name, lines 304-360) raises: ["Docker command not found"] when the
    docker binary is missing, and ["Failed to get containers: Docker ps
    command failed: ..."] with docker's [stderr] when the daemon is
    unreachable.  In both cases the [get_containers] branch of the
    websocket pushes an [error] reply with that text.  The empty list is
    what the first definition of the name (lines 167-217) returns in both
    cases, and that definition is shadowed by the second. *)
Theorem get_docker_containers_unavailable h :
  (docker_missing h →
     get_docker_containers h = Raises (Exception "Docker command not found")
     ∧ get_docker_containers_1 h = Returns (JList [])
     ∧ ∀ connection_id w,
         dispatch h connection_id (request "get_containers") w
         = send_personal_message
             (error_reply
                "Failed to fetch containers: Docker command not found")
             connection_id w)
  ∧ (daemon_unreachable h →
     (∃ result,
        returncode result ≠ 0
        ∧ get_docker_containers h
          = Raises (Exception
                      ("Failed to get containers: Docker ps command failed: "
                       +:+ stderr result))
        ∧ ∀ connection_id w,
            dispatch h connection_id (request "get_containers") w
            = send_personal_message
                (error_reply
                   ("Failed to fetch containers: Failed to get containers: Docker ps command failed: "
                    +:+ stderr result))
                connection_id w)
     ∧ get_docker_containers_1 h = Returns (JList [])).
Proof.
  split.
  - intros Hmissing.
    assert (Hraises : get_docker_containers h
                      = Raises (Exception "Docker command not found")).
    { unfold get_docker_containers.
      edestruct Hmissing as [text Hrun]. rewrite Hrun. reflexivity. }
    split_and!; [exact Hraises| |].
    + unfold get_docker_containers_1.
      destruct (Hmissing [JStr "--version"]) as [text Hrun].
      rewrite Hrun. reflexivity.
    + intros connection_id w.
      by rewrite (get_containers_raises _ _ _ _ Hraises).
  - intros Hdown. split.
    + edestruct Hdown as (result & Hrun & Hcode & Hsays).
      exists result. split; [done|].
      assert (Hraises :
        get_docker_containers h
        = Raises (Exception
                    ("Failed to get containers: Docker ps command failed: "
                     +:+ stderr result))).
      { unfold get_docker_containers. rewrite Hrun. cbn.
        by rewrite (proj2 (Z.eqb_neq _ _) Hcode). }
      split; [exact Hraises|].
      intros connection_id w.
      by rewrite (get_containers_raises _ _ _ _ Hraises).
    + edestruct Hdown as (result & Hrun & Hcode & Hsays).
      unfold get_docker_containers_1, catch_class, outcome_catch.
      destruct (subprocess_run h [JStr "docker"; JStr "--version"])
        as [version|e]; cbn.
      * rewrite Hrun. cbn.
        by rewrite (proj2 (Z.eqb_neq _ _) Hcode), Hsays.
      * case_bool_decide as Hclass; cbn; [done|].
        destruct (exn_class e) eqn:E; try done.
        exfalso. apply Hclass. set_solver.
Qed.
End collaborators.

Lemma get_docker_containers_unavailable_witness :
  docker_missing host_no_docker
  ∧ daemon_unreachable host_no_daemon
  ∧ get_docker_containers host_no_docker
    = Raises (Exception "Docker command not found")
  ∧ get_docker_containers_1 host_no_docker = Returns (JList [])
  ∧ get_docker_containers_1 host_no_daemon = Returns (JList []).
Proof.
  assert (Hmissing : docker_missing host_no_docker).
  { intros args. eexists. reflexivity. }
  assert (Hdown : daemon_unreachable host_no_daemon).
  { intros args. eexists. split; [reflexivity|]. split; [done|reflexivity]. }
  destruct (get_docker_containers_unavailable host_no_docker) as [H1 _].
  destruct (get_docker_containers_unavailable host_no_daemon) as [_ H2].
  destruct (H1 Hmissing) as (Hraise & Hfirst & _).
  destruct (H2 Hdown) as [_ Hfirst'].
  auto.
Defined.

(** C7 as the specification states it does not hold: without a docker
    binary, and with an unreachable daemon, the call raises instead of
    returning the empty list. *)
Lemma get_docker_containers_not_empty_list :
  get_docker_containers host_no_docker
  = Raises (Exception "Docker command not found")
  ∧ get_docker_containers host_no_docker ≠ Returns (JList [])
  ∧ get_docker_containers host_no_daemon
    = Raises (Exception "Failed to get containers: Docker ps command failed: Cannot connect to the Docker daemon at unix:///var/run/docker.sock. Is the docker daemon running?")
  ∧ get_docker_containers host_no_daemon ≠ Returns (JList []).
Proof. repeat split; try reflexivity; discriminate. Qed.

(** ** Properties every step keeps *)

Section stable.
Context {I : World → Prop} {P : json → Prop} `{!Stable I P}.
Context (HP : ∀ m, server_message m → P m).
Implicit Types (w : World) (h : Host).

Lemma keeps_ret {A} (a : A) : keeps I (ret a).
Proof. by intros w Hw. Qed.

Lemma keeps_lift {A} (x : outcome A) : keeps I (lift x).
Proof. by intros w Hw. Qed.

Lemma keeps_modify (f : World → World) :
  (∀ w, I w → I (f w)) → keeps I (modify f).
Proof. intros Hf w Hw. by apply Hf. Qed.

Lemma keeps_bind {A B} (m : M A) (f : A → M B) :
  keeps I m → (∀ a, keeps I (f a)) → keeps I (bind m f).
Proof.
  intros Hm Hf w Hw. specialize (Hm w Hw). unfold bind.
  destruct (m w) as [[a|e] w']; cbn in *; [by apply Hf|done].
Qed.

Lemma keeps_bind_lift {A B} (x : outcome A) (f : A → M B) :
  (∀ a, x = Returns a → keeps I (f a)) → keeps I (bind (lift x) f).
Proof.
  intros Hf w Hw. unfold bind, lift.
  destruct x as [a|e]; cbn; [by apply Hf|done].
Qed.

Lemma keeps_try_except {A} (body : M A) (handler : exn → M A) :
  keeps I body → (∀ e, keeps I (handler e)) → keeps I (try_except body handler).
Proof.
  intros Hbody Hhandler w Hw. specialize (Hbody w Hw). unfold try_except.
  destruct (body w) as [[a|e] w']; cbn in *; [done|by apply Hhandler].
Qed.

Lemma keeps_send message connection_id :
  server_message message →
  keeps I (send_personal_message message connection_id).
Proof.
  intros Hmessage%HP w Hw.
  pose proof (stable_record_call (Push connection_id message) w Hw) as Hw1.
  destruct (active_connections (manager w) !! connection_id)
    as [websocket|] eqn:E.
  - destruct (decide (websocket ∈ broken w)) as [Hb|Hb].
    + rewrite (send_broken _ _ _ _ E Hb). by apply stable_disconnect.
    + rewrite (send_delivered _ _ _ _ E Hb). by apply stable_write_frame.
  - by rewrite (send_unregistered _ _ _ E).
Qed.

Lemma keeps_subscribe connection_id topic :
  keeps I (subscribe connection_id topic).
Proof. intros w Hw. by apply stable_subscribe. Qed.

Lemma keeps_unsubscribe connection_id topic :
  keeps I (unsubscribe connection_id topic).
Proof. intros w Hw. by apply stable_unsubscribe. Qed.

Lemma keeps_create_task c : keeps I (create_task c).
Proof. intros w Hw. by apply stable_create_task. Qed.

Lemma keeps_record_task connection_id t :
  keeps I (record_task connection_id t).
Proof. intros w Hw. by apply stable_record_task. Qed.

Lemma keeps_record_call c : keeps I (modify (record_call c)).
Proof. apply keeps_modify. intros w Hw. by apply stable_record_call. Qed.

Lemma keeps_connect websocket connection_id :
  keeps I (connect websocket connection_id).
Proof. intros w Hw. by apply stable_connect. Qed.

(** Breaks a goal [keeps I m] down along the structure of [m]; what is left
    is [server_message message] for each message [m] pushes. *)
Ltac keeps_step :=
  first
    [ apply keeps_ret | apply keeps_lift | apply keeps_subscribe
    | apply keeps_unsubscribe | apply keeps_create_task
    | apply keeps_record_task | apply keeps_record_call
    | apply keeps_send
    | apply keeps_try_except; [|intros ?]
    | apply keeps_bind_lift; intros ? ?
    | apply keeps_bind; [|intros ?]
    | match goal with
      | |- keeps _ (if ?b then _ else _) => destruct b
      end ].

Ltac server_message_tac :=
  first
    [ apply sm_error | apply sm_killed | apply sm_logs | apply sm_logs_error
    | apply sm_data; set_solver
    | apply sm_action; set_solver ].

Lemma keeps_dispatch h connection_id message :
  keeps I (dispatch h connection_id message).
Proof.
  unfold dispatch, reply.
  repeat keeps_step; try server_message_tac.
  match goal with H : kill_process _ _ = _ |- _ =>
    apply kill_process_true in H; subst
  end.
  apply sm_killed.
Qed.

Lemma keeps_notify_start connection_id container_id action :
  keeps I (notify_start connection_id container_id action).
Proof. unfold notify_start. repeat keeps_step. server_message_tac. Qed.

Lemma keeps_action_failed connection_id container_id action e :
  keeps I (action_failed connection_id container_id action e).
Proof. unfold action_failed. keeps_step. server_message_tac. Qed.

Lemma keeps_finish_action h connection_id container_id action :
  keeps I (finish_action h connection_id container_id action).
Proof.
  unfold finish_action, run_action.
  repeat first [ apply keeps_action_failed | keeps_step ].
  server_message_tac.
Qed.

Lemma keeps_handle_container_action h connection_id container_id action :
  keeps I (handle_container_action h connection_id container_id action).
Proof.
  unfold handle_container_action, run_action.
  repeat first
    [ apply keeps_action_failed | apply keeps_notify_start | keeps_step ].
  server_message_tac.
Qed.

Lemma keeps_stream_container_logs h connection_id container_id tail follow :
  keeps I (stream_container_logs h connection_id container_id tail follow).
Proof.
  unfold stream_container_logs. repeat keeps_step; server_message_tac.
Qed.

Lemma stable_advance h c p w : I w → I (advance h c p w).2.
Proof.
  intros Hw. unfold advance.
  destruct c as [cid container_id action|cid container_id tail follow].
  - destruct p; try by apply keeps_finish_action.
    pose proof (keeps_notify_start cid container_id action w Hw) as Hstart.
    destruct (notify_start cid container_id action w) as [[[]|e] w1];
      cbn [snd] in Hstart.
    + destruct (send_awaits cid w); [done|].
      by apply keeps_finish_action.
    + by apply keeps_action_failed.
  - by apply keeps_stream_container_logs.
Qed.

Lemma stable_step h ev w : I w → I (step h ev w).
Proof.
  intros Hw. destruct ev as [websocket cid|websocket f|t|websocket]; cbn.
  - unfold open_endpoint.
    pose proof (keeps_connect websocket cid w Hw) as Hc.
    destruct (connect websocket cid w) as [[[]|e] w']; [|done].
    by apply stable_set_endpoints.
  - unfold step_endpoint. destruct (endpoints w !! websocket) as [cid|]; [|done].
    assert (Hit : keeps I (iteration h cid f)).
    { unfold iteration, receive.
      apply keeps_bind; [apply keeps_lift|intros m; apply keeps_dispatch]. }
    specialize (Hit w Hw).
    destruct (iteration h cid f w) as [[[]|e] w']; [done|].
    by apply stable_set_endpoints, stable_disconnect.
  - unfold step_task. destruct (tasks w !! t) as [ts|]; [|done].
    destruct (is_done (at_pc ts)); [done|].
    destruct (must_cancel ts); [by apply stable_set_progress|].
    by apply stable_set_progress, stable_advance.
  - by apply stable_set_broken.
Qed.

Lemma stable_run h schedule w : I w → I (run h schedule w).
Proof.
  revert w. induction schedule as [|ev schedule IH]; intros w Hw; [done|].
  cbn. by apply IH, stable_step.
Qed.
End stable.

(** [connect], [subscribe], [unsubscribe] and [record_task] change nothing
    but the manager; [disconnect] changes the manager and asks at most one
    task to cancel. *)
Lemma connect_manager_only websocket connection_id w :
  ∃ m, (connect websocket connection_id w).2 = set_manager m w.
Proof.
  unfold connect, bind, accept, modify. case_bool_decide; cbn; [|by eexists].
  exists (manager w). by destruct w.
Qed.

Lemma subscribe_manager_only connection_id topic w :
  ∃ m, (subscribe connection_id topic w).2 = set_manager m w.
Proof.
  unfold subscribe, bind, lift, modify.
  destruct (subscriptions (manager w) !! connection_id);
    [destruct (hash_key topic)|]; cbn; try by eexists.
  all: exists (manager w); by destruct w.
Qed.

Lemma unsubscribe_manager_only connection_id topic w :
  ∃ m, (unsubscribe connection_id topic w).2 = set_manager m w.
Proof.
  unfold unsubscribe, bind, lift, modify.
  destruct (subscriptions (manager w) !! connection_id);
    [destruct (hash_key topic)|]; cbn; try by eexists.
  all: exists (manager w); by destruct w.
Qed.

Lemma disconnect_manager_cancel connection_id w :
  ∃ m, disconnect connection_id w = set_manager m w
       ∨ ∃ t, disconnect connection_id w = set_manager m (cancel t w).
Proof.
  unfold disconnect.
  destruct (background_tasks (manager w) !! connection_id) as [t|];
    eexists; [right; by exists t|by left].
Qed.

(** A property that does not look at the manager is stable as soon as the
    other elementary changes keep it. *)
Lemma manager_blind_stable (I : World → Prop) (P : json → Prop) :
  (∀ m w, I w → I (set_manager m w)) →
  (∀ c w, I w → I (record_call c w)) →
  (∀ websocket m w, P m → I w → I (write_frame websocket m w)) →
  (∀ t w, I w → I (cancel t w)) →
  (∀ t p w, I w → I (set_progress t p w)) →
  (∀ c w, I w → I (create_task c w).2) →
  (∀ es w, I w → I (set_endpoints es w)) →
  (∀ b w, I w → I (set_broken b w)) →
  Stable I P.
Proof.
  intros Hmanager Hcall Hframe Hcancel Hprogress Hcreate Hendpoints Hbroken.
  split; try done.
  - intros websocket cid w Hw.
    destruct (connect_manager_only websocket cid w) as [m ->]. by apply Hmanager.
  - intros cid w Hw.
    destruct (disconnect_manager_cancel cid w) as [m [->|[t ->]]];
      by auto.
  - intros cid topic w Hw.
    destruct (subscribe_manager_only cid topic w) as [m ->]. by apply Hmanager.
  - intros cid topic w Hw.
    destruct (unsubscribe_manager_only cid topic w) as [m ->].
    by apply Hmanager.
  - intros cid t w Hw. by apply Hmanager.
Qed.

#[global] Instance sent_all_stable (P : json → Prop) : Stable (sent_all P) P.
Proof.
  apply manager_blind_stable; try done.
  intros websocket m w Hm Hw. unfold sent_all. cbn.
  apply Forall_app. split; [done|]. by apply Forall_singleton.
Qed.

#[global] Instance fresh_ids_stable : Stable fresh_ids (λ _, True).
Proof.
  apply manager_blind_stable; try done.
  - intros t w Hw t' Ht'. apply Hw.
    cbn in Ht'. by rewrite lookup_alter_is_Some in Ht'.
  - intros t p w Hw t' Ht'. apply Hw.
    cbn in Ht'. by rewrite lookup_alter_is_Some in Ht'.
  - intros c w Hw t' Ht'. cbn in *.
    destruct (decide (t' = next_task w)) as [->|Hne]; [lia|].
    rewrite lookup_insert_ne in Ht' by done.
    specialize (Hw t' Ht'). lia.
Qed.

#[global] Instance registry_inv_stable : Stable registry_inv (λ _, True).
Proof.
  split; try done.
  - intros. by apply registry_inv_connect.
  - intros. by apply registry_inv_disconnect.
  - intros. by apply registry_inv_subscribe.
  - intros. by apply registry_inv_unsubscribe.
Qed.

(** In every run from the start, the frames written are server messages and
    task identities are fresh. *)
Lemma run_server_messages h schedule :
  sent_all server_message (run h schedule initial_world).
Proof. apply stable_run; [done|]. by apply Forall_nil. Qed.

Lemma run_fresh_ids h schedule : fresh_ids (run h schedule initial_world).
Proof.
  apply (stable_run (P := λ _, True)); [done|].
  intros t [ts Ht]. cbn in Ht. by rewrite lookup_empty in Ht.
Qed.

(** In every run from the start, a key has a channel exactly when it has a
    subscription set. *)
Lemma run_registry_inv h schedule :
  registry_inv (run h schedule initial_world).
Proof. by apply (stable_run (P := λ _, True)). Qed.

Lemma registered_iff_subscribed connection_id w :
  registry_inv w →
  registered connection_id w
  ↔ is_Some (subscriptions (manager w) !! connection_id).
Proof.
  unfold registry_inv, registered. intros Hinv.
  by rewrite <- !elem_of_dom, Hinv.
Qed.

Section kill_replies.
Implicit Types (w : World) (h : Host).

(** C9.  [kill_process] never returns [False]: whatever [psutil] does, it
    returns [True] or raises.  So, in every run of the process from its
    start, each [process_kill_result] frame written to a socket carries
    [success = true] and the text ["Process <pid> killed"]: the ["failed to
    kill"] text is never sent. *)
Theorem kill_process_never_returns_false :
  (∀ h pid, kill_process h pid ≠ Returns false)
  ∧ (∀ h schedule websocket m,
       (websocket, m) ∈ sent (run h schedule initial_world) →
       get m "type" = Returns (JStr "process_kill_result") →
       ∃ pid, m = process_kill_result pid true
              ∧ get m "success" = Returns (JBool true)
              ∧ get m "message"
                = Returns (JStr ("Process " +:+ py_str pid +:+ " killed"))).
Proof.
  split.
  - intros h pid Hfalse. by apply kill_process_true in Hfalse.
  - intros h schedule websocket m Hin Htype.
    pose proof (run_server_messages h schedule) as Hall.
    unfold sent_all in Hall. rewrite Forall_forall in Hall.
    specialize (Hall _ Hin). cbn in Hall.
    destruct Hall as [type data Htypes| | pid | | |];
      try (cbn in Htype; discriminate Htype).
    + cbn in Htype. set_solver.
    + by exists pid.
Qed.
End kill_replies.

Lemma kill_process_never_returns_false_witness :
  let m := process_kill_result (JInt 4242) true in
  sent (run host_ok
          [Open 1%nat "c1";
           Receive 1%nat
             (Json (JDict [("type", JStr "kill_process");
                           ("pid", JInt 4242)]))]
          initial_world)
  = [(1%nat, m)]
  ∧ get m "success" = Returns (JBool true)
  ∧ get m "message" = Returns (JStr "Process 4242 killed").
Proof.
  intros m.
  set (schedule := [Open 1%nat "c1";
                    Receive 1%nat
                      (Json (JDict [("type", JStr "kill_process");
                                    ("pid", JInt 4242)]))]).
  assert (Hsent : sent (run host_ok schedule initial_world) = [(1%nat, m)])
    by reflexivity.
  split; [exact Hsent|].
  destruct (proj2 kill_process_never_returns_false host_ok schedule 1%nat m)
    as (pid & Hm & Hsuccess & Htext).
  - rewrite Hsent. apply list_elem_of_singleton. reflexivity.
  - reflexivity.
  - split; [exact Hsuccess|]. reflexivity.
Defined.

(** ** The receive loop *)

Section receive_loop.
Implicit Types (w : World) (h : Host).

Lemma disconnect_calls connection_id w :
  calls (disconnect connection_id w) = calls w.
Proof. unfold disconnect. by destruct (background_tasks _ !! _). Qed.

(** C2, as the code has it.  A frame that fails to decode gets no reply.
    [json.loads] raises inside the [try] of line 136, which only the clause
    of line 303 catches: the session is unregistered by [disconnect] and
    the endpoint returns.  Nothing is pushed or written, the key is no
    longer registered, and no later frame on that socket is read. *)
Theorem malformed_message_ends_session h websocket connection_id data w :
  endpoints w !! websocket = Some connection_id →
  let w' := step_endpoint h websocket (Garbage data) w in
  w' = set_endpoints (delete websocket (endpoints w))
                     (disconnect connection_id w)
  ∧ sent w' = sent w
  ∧ calls w' = calls w
  ∧ ¬ registered connection_id w'
  ∧ endpoints w' !! websocket = None
  ∧ (∀ f, step_endpoint h websocket f w' = w').
Proof.
  intros Hopen w'.
  assert (Hw' : w' = set_endpoints (delete websocket (endpoints w))
                                   (disconnect connection_id w)).
  { subst w'. unfold step_endpoint. by rewrite Hopen. }
  split; [exact Hw'|]. rewrite Hw'. clear w' Hw'.
  assert (Hgone : endpoints
                    (set_endpoints (delete websocket (endpoints w))
                                   (disconnect connection_id w))
                  !! websocket = None).
  { cbn. apply lookup_delete_eq. }
  repeat split.
  - apply disconnect_sent.
  - apply disconnect_calls.
  - apply disconnect_not_registered.
  - exact Hgone.
  - intros f. unfold step_endpoint at 1. by rewrite Hgone.
Qed.
End receive_loop.

Lemma malformed_message_ends_session_witness :
  let w' := step_endpoint host_ok 1%nat (Garbage "{") world_c1 in
  endpoints world_c1 !! 1%nat = Some "c1"
  ∧ sent w' = []
  ∧ ¬ registered "c1" w'
  ∧ step_endpoint host_ok 1%nat (Json (request "get_system_info")) w' = w'.
Proof.
  assert (Hopen : endpoints world_c1 !! 1%nat = Some "c1") by reflexivity.
  destruct (malformed_message_ends_session host_ok 1%nat "c1" "{" world_c1
              Hopen) as (_ & Hsent & _ & Hnot & _ & Hlater).
  intros w'. subst w'.
  split; [exact Hopen|]. split; [exact Hsent|]. split; [exact Hnot|].
  apply Hlater.
Defined.

(** C2 as the specification states it does not hold.  Session ["c1"] sends
    garbage and then a well-formed [get_system_info]: no frame at all is
    written to its socket, neither an [error] reply nor [system_info]; the
    endpoint is gone and the key unregistered.  Without the garbage the
    same request is answered. *)
Lemma malformed_message_gets_no_reply :
  let garbage_first :=
    run host_ok
      [Open 1%nat "c1"; Receive 1%nat (Garbage "{");
       Receive 1%nat (Json (request "get_system_info"))] initial_world in
  let well_formed_only :=
    run host_ok
      [Open 1%nat "c1"; Receive 1%nat (Json (request "get_system_info"))]
      initial_world in
  sent garbage_first = []
  ∧ endpoints garbage_first !! 1%nat = None
  ∧ active_connections (manager garbage_first) !! "c1" = None
  ∧ sent well_formed_only
    = [(1%nat, data_reply "system_info" (JDict [("hostname", JStr "tars")]))].
Proof. repeat split. Qed.

(** ** Background tasks *)

Section background.
Implicit Types (w : World) (h : Host) (connection_id : string).

Lemma send_returns message connection_id w :
  (send_personal_message message connection_id w).1 = Returns ().
Proof.
  destruct (active_connections (manager w) !! connection_id)
    as [websocket|] eqn:E.
  - destruct (decide (websocket ∈ broken w)) as [Hb|Hb].
    + by rewrite (send_broken _ _ _ _ E Hb).
    + by rewrite (send_delivered _ _ _ _ E Hb).
  - by rewrite (send_unregistered _ _ _ E).
Qed.

Lemma send_calls message connection_id w :
  calls (send_personal_message message connection_id w).2
  = (calls w ++ [Push connection_id message])%list.
Proof.
  destruct (active_connections (manager w) !! connection_id)
    as [websocket|] eqn:E.
  - destruct (decide (websocket ∈ broken w)) as [Hb|Hb].
    + rewrite (send_broken _ _ _ _ E Hb). cbn [snd].
      by rewrite disconnect_calls.
    + by rewrite (send_delivered _ _ _ _ E Hb).
  - by rewrite (send_unregistered _ _ _ E).
Qed.

Lemma finish_action_calls h connection_id container_id action w :
  let r := finish_action h connection_id container_id action w in
  r.1 = Returns ()
  ∧ calls r.2
    = (calls w ++
       [Blocking "execute_container_action" [container_id; action];
        Push connection_id (terminal_message h container_id action)])%list.
Proof.
  unfold finish_action, run_action, action_failed, try_except, bind, modify,
    lift, terminal_message.
  destruct (execute_container_action h container_id action) as [msg|e];
    cbn -[send_personal_message].
  - pose proof (send_returns
      (container_action_result container_id action "success" msg)
      connection_id
      (record_call (Blocking "execute_container_action" [container_id; action])
         w)) as Hret.
    pose proof (send_calls
      (container_action_result container_id action "success" msg)
      connection_id
      (record_call (Blocking "execute_container_action" [container_id; action])
         w)) as Hcalls.
    destruct (send_personal_message _ _ _) as [[[]|e] w']; [|done].
    cbn in *. split; [done|]. by rewrite Hcalls, <- app_assoc.
  - split; [apply send_returns|].
    rewrite send_calls. cbn. by rewrite <- app_assoc.
Qed.
Lemma try_except_bind_returns {A B} (m : M A) (f : A → M B) handler a w :
  (m w).1 = Returns a →
  try_except (bind m f) handler w = try_except (f a) handler (m w).2.
Proof.
  unfold try_except, bind. destruct (m w) as [[a'|e] w']; cbn; [|done].
  by intros [= ->].
Qed.

Lemma notify_start_str connection_id container_id (action : string) w :
  notify_start connection_id container_id (JStr action) w
  = send_personal_message
      (container_action_result container_id (JStr action) "in_progress"
         (capitalize action +:+ " requested..."))
      connection_id w.
Proof. reflexivity. Qed.

Lemma handle_container_action_calls
    h connection_id container_id (action : string) w :
  let r :=
    handle_container_action h connection_id container_id (JStr action) w in
  r.1 = Returns ()
  ∧ calls r.2
    = (calls w ++
       [Push connection_id
          (container_action_result container_id (JStr action) "in_progress"
             (capitalize action +:+ " requested..."));
        Blocking "execute_container_action" [container_id; JStr action];
        Push connection_id
          (terminal_message h container_id (JStr action))])%list.
Proof.
  intros r. subst r. unfold handle_container_action.
  rewrite (try_except_bind_returns _ _ _ ())
    by (rewrite notify_start_str; apply send_returns).
  rewrite notify_start_str.
  destruct (finish_action_calls h connection_id container_id (JStr action)
    (send_personal_message
       (container_action_result container_id (JStr action) "in_progress"
          (capitalize action +:+ " requested..."))
       connection_id w).2) as [Hret Hcalls].
  unfold finish_action in Hret, Hcalls.
  split; [exact Hret|].
  rewrite Hcalls, send_calls. by rewrite <- app_assoc.
Qed.

(** On a registered session whose socket takes the writes, the two pushes
    are two frames on that socket, in the same order. *)
Lemma handle_container_action_sent
    h connection_id container_id (action : string) websocket w :
  active_connections (manager w) !! connection_id = Some websocket →
  websocket ∉ broken w →
  sent (handle_container_action h connection_id container_id (JStr action)
          w).2
  = (sent w ++
     [(websocket,
       container_action_result container_id (JStr action) "in_progress"
         (capitalize action +:+ " requested..."));
      (websocket, terminal_message h container_id (JStr action))])%list.
Proof.
  intros Hsome Hok. unfold handle_container_action.
  rewrite (try_except_bind_returns _ _ _ ())
    by (rewrite notify_start_str; apply send_returns).
  rewrite notify_start_str, (send_delivered _ _ _ _ Hsome Hok). cbn [snd].
  unfold run_action, action_failed, try_except, bind, modify, lift,
    terminal_message.
  destruct (execute_container_action h container_id (JStr action))
    as [msg|e]; cbn -[send_personal_message].
  - erewrite send_delivered by (cbn; eassumption).
    cbn. by rewrite <- app_assoc.
  - erewrite send_delivered by (cbn; eassumption).
    cbn. by rewrite <- app_assoc.
Qed.

(** What the coroutine does with an action that is not a string: building
    the [in_progress] message raises, and the [except] clause pushes. *)
Lemma handle_container_action_not_str h connection_id container_id action w :
  (∀ s, action ≠ JStr s) →
  handle_container_action h connection_id container_id action w
  = send_personal_message
      (container_action_result container_id action "error"
         (exn_str (no_attribute action "capitalize")))
      connection_id w.
Proof.
  intros Hnot. unfold handle_container_action, try_except, bind, notify_start,
    lift, action_failed.
  destruct action; try reflexivity. by destruct (Hnot s).
Qed.

(** C5, as the code has it.  [handle_container_action] run from its first
    line to its last, that is, in a task that is not cancelled, returns
    normally.  When [action] is a string, the calls it makes are, in this
    order, the push of the [in_progress] message, the blocking
    [execute_container_action], and the push of one terminal message, which
    is tagged [success] when the blocking call returned and [error] when it
    raised; for an action of ASCII characters the [in_progress] text is the
    capitalized action followed by [" requested..."].  When [action] is not
    a string, building the [in_progress] message raises [AttributeError]:
    the blocking call is not made, and the only call is the push of one
    terminal message tagged [error], with the text of that exception.  Each
    push is an attempt: it is made whether or not the session is still
    registered and the socket writable. *)
Theorem container_action_pushes_in_order
    h connection_id container_id action w :
  let r := handle_container_action h connection_id container_id action w in
  let terminal := terminal_message h container_id action in
  r.1 = Returns ()
  ∧ (∀ s, action = JStr s →
       ∃ text,
         calls r.2
         = (calls w ++
            [Push connection_id
               (container_action_result container_id action "in_progress"
                  text);
             Blocking "execute_container_action" [container_id; action];
             Push connection_id terminal])%list
         ∧ (is_ascii s = true → text = capitalize s +:+ " requested...")
         ∧ ((∃ result,
               execute_container_action h container_id action
               = Returns result
               ∧ terminal
                 = container_action_result container_id action "success"
                     result)
            ∨ (∃ e,
                 execute_container_action h container_id action = Raises e
                 ∧ terminal
                   = container_action_result container_id action "error"
                       (exn_str e))))
  ∧ ((∀ s, action ≠ JStr s) →
       calls r.2
       = (calls w ++
          [Push connection_id
             (container_action_result container_id action "error"
                ("'" +:+ type_name action
                 +:+ "' object has no attribute 'capitalize'"))])%list).
Proof.
  intros r terminal. subst r terminal. split_and!.
  - destruct action as [| | |s| |];
      try (rewrite handle_container_action_not_str by done;
           apply send_returns).
    apply handle_container_action_calls.
  - intros s ->.
    destruct (handle_container_action_calls h connection_id container_id s w)
      as [_ Hcalls].
    exists (capitalize s +:+ " requested..."). split_and!; [done|done|].
    unfold terminal_message.
    destruct (execute_container_action h container_id (JStr s)) as [msg|e];
      [left|right]; eauto.
  - intros Hnot. rewrite handle_container_action_not_str by done.
    by rewrite send_calls.
Qed.

(** C5 as the specification states it does not hold for every container
    action.  The endpoint starts the task for any truthy [action]: for the
    action [5] the task pushes a terminal [error] message that no
    [in_progress] message precedes.  And a task whose session is torn down
    while it waits in its first send is cancelled: the [in_progress]
    message was pushed, and no terminal message follows it. *)
Lemma container_action_pushes_not_always_paired :
  let request5 :=
    JDict [("type", JStr "container_action"); ("container_id", JStr "abc");
           ("action", JInt 5)] in
  let failed :=
    run host_ok [Open 1%nat "c1"; Receive 1%nat (Json request5);
                 Resume 0%nat]
      initial_world in
  let cancelled :=
    run host_ok [Open 1%nat "c1";
                 Receive 1%nat (Json (container_action "abc" "restart"));
                 Resume 0%nat; Receive 1%nat Closed; Resume 0%nat]
      initial_world in
  calls failed
  = [Push "c1"
       (container_action_result (JStr "abc") (JInt 5) "error"
          "'int' object has no attribute 'capitalize'")]
  ∧ at_pc <$> tasks failed !! 0%nat = Some Finished
  ∧ calls cancelled
    = [Push "c1"
         (container_action_result (JStr "abc") (JStr "restart") "in_progress"
            "Restart requested...")]
  ∧ at_pc <$> tasks cancelled !! 0%nat = Some Cancelled.
Proof. by vm_compute. Qed.

Lemma container_action_pushes_in_order_witness :
  calls (handle_container_action host_ok "c1" (JStr "abc") (JStr "stop")
           world_c1).2
  = (calls world_c1 ++
     [Push "c1"
        (container_action_result (JStr "abc") (JStr "stop") "in_progress"
           "Stop requested...");
      Blocking "execute_container_action" [JStr "abc"; JStr "stop"];
      Push "c1"
        (container_action_result (JStr "abc") (JStr "stop") "success"
           "Container stoped successfully")])%list
  ∧ calls (handle_container_action host_ok "c1" (JStr "abc")
             (JList [JStr "stop"]) world_c1).2
    = (calls world_c1 ++
       [Push "c1"
          (container_action_result (JStr "abc") (JList [JStr "stop"]) "error"
             "'list' object has no attribute 'capitalize'")])%list.
Proof.
  destruct (container_action_pushes_in_order host_ok "c1" (JStr "abc")
              (JStr "stop") world_c1) as (_ & Hstr & _).
  destruct (container_action_pushes_in_order host_ok "c1" (JStr "abc")
              (JList [JStr "stop"]) world_c1) as (_ & _ & Hnot).
  destruct (Hstr "stop" eq_refl) as (text & Hcalls & Htext & _).
  rewrite (Htext eq_refl) in Hcalls.
  split; [exact Hcalls|]. apply Hnot. discriminate.
Defined.

(** A task, once created, stays in the table of tasks. *)
#[local] Instance task_exists_stable (t : Task) :
  Stable (λ w, is_Some (tasks w !! t)) (λ _, True).
Proof.
  apply manager_blind_stable; try done.
  - intros t' w Hw. cbn. by rewrite lookup_alter_is_Some.
  - intros t' p w Hw. cbn. by rewrite lookup_alter_is_Some.
  - intros c w Hw. cbn. rewrite lookup_insert_is_Some'. by right.
Qed.

Lemma set_progress_lookup t p w :
  is_Some (tasks w !! t) →
  at_pc <$> tasks (set_progress t p w) !! t = Some p.
Proof. intros [ts Hts]. cbn. by rewrite lookup_alter_eq, Hts. Qed.

(** On the scheduler, a container action whose task is not cancelled
    makes the calls of C5 within two resumptions, and is then finished:
    the [in_progress] push is made when the task starts, the blocking call
    and the terminal push in the same resumption or, when the first send
    suspended the task, in the next one. *)
Lemma resumed_task_runs_container_action
    h t connection_id container_id (action : string) w :
  tasks w !! t
  = Some {| coro := handle_container_action_coro connection_id container_id
                      (JStr action);
            at_pc := Created; must_cancel := false |} →
  let w' := run h [Resume t; Resume t] w in
  calls w'
  = calls (handle_container_action h connection_id container_id
             (JStr action) w).2
  ∧ at_pc <$> tasks w' !! t = Some Finished.
Proof.
  intros Ht w'. subst w'.
  destruct (handle_container_action_calls h connection_id container_id
              action w) as (_ & ->).
  assert (Hexists : is_Some (tasks w !! t)) by by rewrite Ht.
  pose proof (keeps_notify_start (I := λ w, is_Some (tasks w !! t))
                (λ _ _, Logic.I)
                connection_id container_id (JStr action) w Hexists) as Hstart.
  rewrite notify_start_str in Hstart.
  pose proof (send_returns
    (container_action_result container_id (JStr action) "in_progress"
       (capitalize action +:+ " requested..."))
    connection_id w) as Hret.
  pose proof (send_calls
    (container_action_result container_id (JStr action) "in_progress"
       (capitalize action +:+ " requested..."))
    connection_id w) as Hcalls.
  destruct (send_personal_message _ connection_id w) as [[[]|e] w1] eqn:Hsend;
    [|done].
  cbn [fst snd] in *.
  change (run h [Resume t; Resume t] w)
    with (step_task h t (step_task h t w)).
  assert (Hstep1 :
    step_task h t w
    = if send_awaits connection_id w then set_progress t Suspended w1
      else set_progress t Finished
             (finish_action h connection_id container_id (JStr action) w1).2).
  { unfold step_task. rewrite Ht. cbn [at_pc is_done must_cancel coro].
    unfold advance. rewrite notify_start_str, Hsend.
    by destruct (send_awaits connection_id w). }
  rewrite Hstep1. clear Hstep1.
  destruct (send_awaits connection_id w) eqn:Hawaits.
  - (* the send suspended the task: the second resumption finishes it *)
    assert (Hw1 : tasks w1 = tasks w).
    { unfold send_awaits in Hawaits.
      destruct (active_connections (manager w) !! connection_id)
        as [websocket|] eqn:E; [|done].
      apply bool_decide_eq_true_1 in Hawaits.
      rewrite (send_delivered _ _ _ _ E Hawaits) in Hsend.
      by injection Hsend as <-. }
    assert (Hsuspended :
      tasks (set_progress t Suspended w1) !! t
      = Some {| coro := handle_container_action_coro connection_id
                          container_id (JStr action);
                at_pc := Suspended; must_cancel := false |}).
    { cbn. by rewrite lookup_alter_eq, Hw1, Ht. }
    assert (Hstep2 :
      step_task h t (set_progress t Suspended w1)
      = set_progress t Finished
          (finish_action h connection_id container_id (JStr action)
             (set_progress t Suspended w1)).2).
    { unfold step_task. by rewrite Hsuspended. }
    rewrite Hstep2. clear Hstep2.
    destruct (finish_action_calls h connection_id container_id (JStr action)
                (set_progress t Suspended w1)) as [_ Hfinish].
    split.
    + change (calls (set_progress t Finished ?x)) with (calls x).
      rewrite Hfinish.
      change (calls (set_progress t Suspended w1)) with (calls w1).
      by rewrite Hcalls, <- app_assoc.
    + apply set_progress_lookup.
      apply (keeps_finish_action (I := λ w, is_Some (tasks w !! t))
               (λ _ _, Logic.I)).
      by rewrite Hsuspended.
  - (* no suspension: the first resumption runs the whole body *)
    destruct (finish_action_calls h connection_id container_id (JStr action)
                w1) as [_ Hfinish].
    assert (Hdone :
      at_pc <$> tasks
        (set_progress t Finished
           (finish_action h connection_id container_id (JStr action) w1).2)
        !! t = Some Finished).
    { apply set_progress_lookup.
      by apply (keeps_finish_action (I := λ w, is_Some (tasks w !! t))
                  (λ _ _, Logic.I)). }
    assert (Hstep2 :
      step_task h t
        (set_progress t Finished
           (finish_action h connection_id container_id (JStr action) w1).2)
      = set_progress t Finished
          (finish_action h connection_id container_id (JStr action) w1).2).
    { unfold step_task at 1.
      destruct (tasks (set_progress t Finished _) !! t) as [ts|] eqn:Hts;
        [|done].
      injection Hdone as Hdone. by rewrite Hdone. }
    rewrite Hstep2. clear Hstep2. split; [|exact Hdone].
    change (calls (set_progress t Finished ?x)) with (calls x).
    rewrite Hfinish. by rewrite Hcalls, <- app_assoc.
Qed.
(** On the scheduler with cancellation: whatever the state of the task, one
    resumption of a container action adds to the log of calls nothing, or
    the [in_progress] push alone (the task is then suspended), or the
    [in_progress] push, the blocking call and the terminal push, or, from
    the suspension, the blocking call and the terminal push.  So the
    blocking call is never made before the [in_progress] push, and is
    always followed by exactly one terminal push. *)
Lemma step_task_container_action_calls
    h t ts connection_id container_id (action : string) w :
  tasks w !! t = Some ts →
  coro ts
  = handle_container_action_coro connection_id container_id (JStr action) →
  let in_progress :=
    Push connection_id
      (container_action_result container_id (JStr action) "in_progress"
         (capitalize action +:+ " requested...")) in
  let blocking :=
    Blocking "execute_container_action" [container_id; JStr action] in
  let terminal :=
    Push connection_id (terminal_message h container_id (JStr action)) in
  let added l := calls (step_task h t w) = (calls w ++ l)%list in
  match at_pc ts with
  | Created =>
      added [] ∨ added [in_progress] ∨ added [in_progress; blocking; terminal]
  | Suspended => added [] ∨ added [blocking; terminal]
  | Finished | Cancelled => added []
  end.
Proof.
  intros Ht Hcoro in_progress blocking terminal added.
  subst added in_progress blocking terminal.
  unfold step_task. rewrite Ht.
  destruct (at_pc ts) eqn:Hpc; cbn [is_done];
    try by rewrite app_nil_r.
  - (* Created *)
    destruct (must_cancel ts); [left; cbn; by rewrite app_nil_r|right].
    rewrite Hcoro. unfold advance. rewrite notify_start_str.
    pose proof (send_returns
      (container_action_result container_id (JStr action) "in_progress"
         (capitalize action +:+ " requested..."))
      connection_id w) as Hret.
    pose proof (send_calls
      (container_action_result container_id (JStr action) "in_progress"
         (capitalize action +:+ " requested..."))
      connection_id w) as Hcalls.
    destruct (send_personal_message _ connection_id w) as [[[]|e] w1];
      [|done].
    cbn [fst snd] in *.
    destruct (send_awaits connection_id w); [left; exact Hcalls|right].
    cbn [fst snd].
    change (calls (set_progress t Finished ?x)) with (calls x).
    destruct (finish_action_calls h connection_id container_id (JStr action)
                w1) as [_ ->].
    by rewrite Hcalls, <- app_assoc.
  - (* Suspended *)
    destruct (must_cancel ts); [left; cbn; by rewrite app_nil_r|right].
    rewrite Hcoro. cbn [advance fst snd].
    change (calls (set_progress t Finished ?x)) with (calls x).
    by destruct (finish_action_calls h connection_id container_id
                   (JStr action) w) as [_ ->].
Qed.

(** What the two branches of lines 226-245 do with a message that starts a
    task. *)
Lemma dispatch_starts_task h connection_id message c w :
  starts_task connection_id message c →
  dispatch h connection_id message w
  = (let! task := create_task c in record_task connection_id task) w.
Proof.
  intros [container_id action Htype Hid Haction Tid Taction
         |container_id tail follow Htype Hid Htail Hfollow Tid];
    unfold dispatch, bind, lift; rewrite Htype;
    cbn [json_eqb_str String.eqb Ascii.eqb Bool.eqb].
  - by rewrite Hid, Haction, Tid, Taction.
  - by rewrite Hid, Htail, Hfollow, Tid.
Qed.

(** C1, as the code has it.  A session has a background task recorded,
    pending and not asked to cancel, and its endpoint receives a message
    that starts a background task.  Then a new task is created and
    recorded for the session in place of the old one, and the old task is
    left exactly as it was: it is not asked to cancel and is still pending,
    so the session now has two tasks that run.  Nothing is written while
    the request is handled, and when the old task is next resumed it goes
    on with its coroutine. *)
Theorem new_request_keeps_old_task
    h websocket connection_id message c t_old w :
  endpoints w !! websocket = Some connection_id →
  background_tasks (manager w) !! connection_id = Some t_old →
  running t_old w →
  fresh_ids w →
  starts_task connection_id message c →
  let w' := step_endpoint h websocket (Json message) w in
  let t_new := next_task w in
  t_new ≠ t_old
  ∧ tasks w' !! t_old = tasks w !! t_old
  ∧ running t_old w'
  ∧ tasks w' !! t_new
    = Some {| coro := c; at_pc := Created; must_cancel := false |}
  ∧ running t_new w'
  ∧ background_tasks (manager w') !! connection_id = Some t_new
  ∧ sent w' = sent w
  ∧ (∀ ts, tasks w !! t_old = Some ts →
       step_task h t_old w'
       = set_progress t_old (advance h (coro ts) (at_pc ts) w').1
                            (advance h (coro ts) (at_pc ts) w').2).
Proof.
  intros Hopen Hrecorded (ts & Hts & Hpending & Hnot_cancelled) Hfresh Hstarts
    w' t_new.
  assert (Hne : t_new ≠ t_old).
  { subst t_new. intros Heq.
    assert (t_old < next_task w)%nat by (apply Hfresh; by rewrite Hts). lia. }
  assert (Hw' : w' = (record_task connection_id t_new (create_task c w).2).2).
  { subst w'. unfold step_endpoint. rewrite Hopen.
    unfold iteration, receive, bind at 1, lift.
    by rewrite (dispatch_starts_task _ _ _ _ _ Hstarts). }
  assert (Hold : tasks w' !! t_old = tasks w !! t_old).
  { rewrite Hw'. cbn. by rewrite lookup_insert_ne. }
  assert (Hnew : tasks w' !! t_new
                 = Some {| coro := c; at_pc := Created;
                           must_cancel := false |}).
  { rewrite Hw'. cbn. by rewrite lookup_insert_eq. }
  split; [exact Hne|]. split; [exact Hold|].
  split; [exists ts; by rewrite Hold|].
  split; [exact Hnew|].
  split; [by eexists|].
  split; [rewrite Hw'; cbn; by rewrite lookup_insert_eq|].
  split; [by rewrite Hw'|].
  intros ts' Hts'. rewrite Hts in Hts'. injection Hts' as <-.
  unfold step_task. rewrite Hold, Hts. by rewrite Hpending, Hnot_cancelled.
Qed.
End background.

Lemma new_request_keeps_old_task_witness :
  let w' :=
    step_endpoint host_ok 1%nat (Json (container_action "abc" "stop"))
      world_restarting in
  running 0%nat world_restarting
  ∧ running 0%nat w'
  ∧ running 1%nat w'
  ∧ background_tasks (manager w') !! "c1" = Some 1%nat.
Proof.
  assert (Hrunning : running 0%nat world_restarting).
  { eexists. split; [reflexivity|]. split; reflexivity. }
  assert (Hfresh : fresh_ids world_restarting).
  { apply run_fresh_ids. }
  assert (Hstarts :
    starts_task "c1" (container_action "abc" "stop")
      (handle_container_action_coro "c1" (JStr "abc") (JStr "stop"))).
  { by constructor. }
  destruct (new_request_keeps_old_task host_ok 1%nat "c1"
              (container_action "abc" "stop") _ 0%nat world_restarting
              eq_refl eq_refl Hrunning Hfresh Hstarts)
    as (_ & _ & Hold & _ & Hnew & Hrecorded & _).
  intros w'. subst w'. auto.
Defined.

(** C1 as the specification states it does not hold.  Session ["c1"] asks
    for a restart and, before that task is done, for a stop: once before
    the first task has started ([early]), once while it is suspended in its
    first send ([late]).  Either way the first task is not cancelled: both
    tasks are pending after the second request, and when the event loop
    has run both to their end, two terminal messages have been written on
    the session's socket, one per request. *)
Lemma second_request_does_not_cancel_first :
  let restart :=
    handle_container_action_coro "c1" (JStr "abc") (JStr "restart") in
  let stop :=
    handle_container_action_coro "c1" (JStr "abc") (JStr "stop") in
  let early :=
    run host_ok
      [Open 1%nat "c1";
       Receive 1%nat (Json (container_action "abc" "restart"));
       Receive 1%nat (Json (container_action "abc" "stop"))]
      initial_world in
  let late :=
    step host_ok (Receive 1%nat (Json (container_action "abc" "stop")))
      world_restarting in
  let resumes := [Resume 0%nat; Resume 1%nat; Resume 0%nat; Resume 1%nat] in
  let terminal_frames w := filter (λ f, is_terminal f.2) (sent w) in
  let both :=
    [(1%nat,
      container_action_result (JStr "abc") (JStr "restart") "success"
        "Container restarted successfully");
     (1%nat,
      container_action_result (JStr "abc") (JStr "stop") "success"
        "Container stoped successfully")] in
  tasks early !! 0%nat
  = Some {| coro := restart; at_pc := Created; must_cancel := false |}
  ∧ tasks early !! 1%nat
    = Some {| coro := stop; at_pc := Created; must_cancel := false |}
  ∧ terminal_frames (run host_ok resumes early) = both
  ∧ tasks late !! 0%nat
    = Some {| coro := restart; at_pc := Suspended; must_cancel := false |}
  ∧ tasks late !! 1%nat
    = Some {| coro := stop; at_pc := Created; must_cancel := false |}
  ∧ terminal_frames (run host_ok resumes late) = both
  ∧ length both ≠ 1%nat.
Proof. repeat split; try reflexivity. by vm_compute. Qed.

(** * Further properties *)

(** ** The manager, one call at a time *)

Section manager_calls.
Implicit Types (w : World) (connection_id : string) (message topic : json).

(** X1.  Whatever the state, [send_personal_message] returns normally and
    writes at most one frame: either nothing is written, or the key has a
    channel whose transport works, the frame goes to that channel and to no
    other socket, and the registry is left as it was. *)
Theorem send_writes_only_to_registered_channel message connection_id w :
  let r := send_personal_message message connection_id w in
  r.1 = Returns ()
  ∧ (sent r.2 = sent w
     ∨ (∃ websocket,
          active_connections (manager w) !! connection_id = Some websocket
          ∧ (websocket ∉ broken w)
          ∧ sent r.2 = (sent w ++ [(websocket, message)])%list
          ∧ manager r.2 = manager w)).
Proof.
  intros r. subst r. split; [apply send_returns|].
  destruct (active_connections (manager w) !! connection_id)
    as [websocket|] eqn:E.
  - destruct (decide (websocket ∈ broken w)) as [Hb|Hb].
    + left. rewrite (send_broken _ _ _ _ E Hb). cbn [snd].
      by rewrite disconnect_sent.
    + right. exists websocket. by rewrite (send_delivered _ _ _ _ E Hb).
  - left. by rewrite (send_unregistered _ _ _ E).
Qed.





(** X3.  [disconnect] can be called again without effect, and it touches
    nothing but its key and the task recorded for it: calling it twice
    gives the same world as calling it once; the channel, the subscription
    set and the recorded task of every other key are as before; the task
    recorded for the key is asked to cancel, and every other task is left
    exactly as it was; no frame is written, and the endpoints and the
    transports are as before. *)
Theorem disconnect_idempotent connection_id w :
  let w' := disconnect connection_id w in
  disconnect connection_id w' = w'
  ∧ (∀ other, other ≠ connection_id →
       active_connections (manager w') !! other
       = active_connections (manager w) !! other
       ∧ subscriptions (manager w') !! other
         = subscriptions (manager w) !! other
       ∧ background_tasks (manager w') !! other
         = background_tasks (manager w) !! other)
  ∧ (∀ t, background_tasks (manager w) !! connection_id = Some t →
          tasks w' !! t = request_cancel <$> tasks w !! t)
  ∧ (∀ t, background_tasks (manager w) !! connection_id ≠ Some t →
          tasks w' !! t = tasks w !! t)
  ∧ sent w' = sent w
  ∧ endpoints w' = endpoints w
  ∧ broken w' = broken w
  ∧ next_task w' = next_task w.
Proof.
  intros w'. subst w'. split_and!.
  - unfold disconnect at 1.
    rewrite disconnect_background_tasks, lookup_delete_eq.
    rewrite disconnect_active, disconnect_subscriptions, !delete_delete_eq.
    unfold disconnect.
    by destruct (background_tasks (manager w) !! connection_id).
  - intros other Hne.
    rewrite disconnect_active, disconnect_subscriptions,
      disconnect_background_tasks.
    by rewrite !lookup_delete_ne.
  - intros t Ht. rewrite disconnect_tasks, Ht. apply lookup_alter_eq.
  - intros t Ht. rewrite disconnect_tasks.
    destruct (background_tasks (manager w) !! connection_id) as [t'|];
      [|done].
    apply lookup_alter_ne. congruence.
  - apply disconnect_sent.
  - unfold disconnect. by destruct (background_tasks _ !! _).
  - unfold disconnect. by destruct (background_tasks _ !! _).
  - unfold disconnect. by destruct (background_tasks _ !! _).
Qed.

(** X4.  Subscribing to a topic the session does not have and then
    unsubscribing from it brings the world back exactly; this holds for
    every topic a Python set can hold.  A topic that cannot be hashed (a
    list or a dict) makes both calls raise [TypeError] and change nothing. *)
Theorem subscribe_unsubscribe_round_trip connection_id topic topics w :
  subscriptions (manager w) !! connection_id = Some topics →
  (∀ k, hash_key topic = Returns k → k ∉ topics →
     unsubscribe connection_id topic (subscribe connection_id topic w).2
     = (Returns (), w))
  ∧ (∀ e, hash_key topic = Raises e →
       exn_class e = TypeError
       ∧ subscribe connection_id topic w = (Raises e, w)
       ∧ unsubscribe connection_id topic w = (Raises e, w)).
Proof.
  intros Hsome. split.
  - intros k Hk Hnotin.
    unfold subscribe at 1. rewrite Hsome. unfold bind, lift, modify.
    rewrite Hk. cbn [snd].
    unfold unsubscribe.
    cbn [manager set_manager subscriptions active_connections
         background_tasks].
    rewrite lookup_insert_eq.
    unfold bind, lift, modify. rewrite Hk.
    rewrite insert_insert_eq.
    replace ((topics ∪ {[k]}) ∖ {[k]}) with topics by set_solver.
    rewrite (insert_id _ _ _ Hsome).
    f_equal. clear. by destruct w as [[]].
  - intros e He. split; [by destruct topic; inversion He|].
    unfold subscribe, unsubscribe. rewrite Hsome.
    unfold bind, lift. by rewrite He.
Qed.
End manager_calls.


Lemma subscribe_unsubscribe_round_trip_witness :
  unsubscribe "c1" (JStr "metrics")
    (subscribe "c1" (JStr "metrics") world_c1).2
  = (Returns (), world_c1)
  ∧ subscribe "c1" (JList [JInt 1]) world_c1
    = (Raises (mk_exn TypeError "unhashable type: 'list'"), world_c1).
Proof.
  destruct (subscribe_unsubscribe_round_trip "c1" (JStr "metrics") ∅
              world_c1 eq_refl) as [Hround _].
  destruct (subscribe_unsubscribe_round_trip "c1" (JList [JInt 1]) ∅
              world_c1 eq_refl) as [_ Hraise].
  split.
  - apply (Hround (HStr "metrics") eq_refl), not_elem_of_empty.
  - by destruct (Hraise _ eq_refl) as (_ & Hsub & _).
Defined.

(** ** The dispatcher and the coroutines *)

Section dispatcher.
Implicit Types (w : World) (h : Host) (connection_id : string).

(** X5.  [stream_container_logs] returns normally and makes, after the
    blocking [get_container_logs], exactly one push: a [container_logs]
    message with the text docker returned, or a [container_logs_error]
    message with the text of the exception.  The reply carries
    [follow = false] whatever [follow] was asked for. *)
Theorem stream_container_logs_pushes_once
    h connection_id container_id tail follow w :
  let r := stream_container_logs h connection_id container_id tail follow w in
  r.1 = Returns ()
  ∧ ∃ m,
      calls r.2
      = (calls w ++
         [Blocking "get_container_logs" [container_id; tail];
          Push connection_id m])%list
      ∧ ((∃ logs,
            get_container_logs h container_id tail = Returns logs
            ∧ m = JDict [("type", JStr "container_logs");
                         ("container_id", container_id);
                         ("logs", JStr logs); ("tail", tail);
                         ("follow", JBool false)])
         ∨ (∃ e,
              get_container_logs h container_id tail = Raises e
              ∧ m = JDict [("type", JStr "container_logs_error");
                           ("container_id", container_id);
                           ("error", JStr (exn_str e))])).
Proof.
  intros r. subst r.
  unfold stream_container_logs, try_except, bind, modify, lift.
  destruct (get_container_logs h container_id tail) as [logs|e];
    cbn -[send_personal_message].
  - match goal with
    | |- context [send_personal_message ?m ?c ?x] =>
        pose proof (send_returns m c x) as Hret;
        pose proof (send_calls m c x) as Hcalls;
        destruct (send_personal_message m c x) as [[[]|e] w'];
        [|discriminate Hret]
    end.
    cbn in *. split; [done|]. eexists. split; [|left; eauto].
    by rewrite Hcalls, <- app_assoc.
  - split; [apply send_returns|]. eexists. split; [|right; eauto].
    rewrite send_calls. cbn. by rewrite <- app_assoc.
Qed.

(** X6.  A message whose [type] is missing, is not a string, or is none of
    the request types the dispatcher knows, is ignored: the turn returns
    normally and the world is unchanged, so no reply of any kind is sent. *)
Theorem unknown_type_is_ignored h connection_id fields w :
  (∀ known, known ∈ known_types →
     json_eqb_str (default JNull (assoc "type" fields)) known = false) →
  dispatch h connection_id (JDict fields) w = (Returns (), w).
Proof.
  intros Hunknown.
  unfold dispatch, bind at 1, lift, get, get_default.
  cbn [known_types app fmap list_fmap reply_types fst] in Hunknown.
  rewrite !Hunknown by set_solver.
  reflexivity.
Qed.

(** X7.  A request that lacks what it needs is dropped without a reply and
    without an error: [subscribe] and [unsubscribe] with a topic that is
    missing or falsy, [container_action] with a container id or an action
    that is missing or falsy, [get_container_logs] with such a container
    id.  The world is unchanged: no task is created and nothing is
    pushed. *)
Theorem incomplete_request_is_dropped h connection_id fields w :
  let field key := default JNull (assoc key fields) in
  let type_is type := json_eqb_str (field "type") type = true in
  ((type_is "subscribe" ∨ type_is "unsubscribe")
   ∧ truthy (field "topic") = false)
  ∨ (type_is "container_action"
     ∧ (truthy (field "container_id") = false
        ∨ truthy (field "action") = false))
  ∨ (type_is "get_container_logs" ∧ truthy (field "container_id") = false) →
  dispatch h connection_id (JDict fields) w = (Returns (), w).
Proof.
  intros field type_is Hcases. subst type_is field. cbn beta in Hcases.
  unfold dispatch, bind, lift, get, get_default.
  destruct (default JNull (assoc "type" fields)) as [| | |type| |];
    try (cbn in Hcases; naive_solver).
  cbn [json_eqb_str] in *.
  destruct Hcases as [[[Htype|Htype] Htopic]
                     |[[Htype [Hfalsy|Hfalsy]]|[Htype Hfalsy]]];
    apply String.eqb_eq in Htype; subst type; cbn [String.eqb Ascii.eqb
      Bool.eqb]; rewrite ?Htopic, ?Hfalsy; try reflexivity.
  by rewrite andb_false_r.
Qed.
(** A branch of the shape of [reply] is one [Send]: of the data when the
    collaborator returned, of an [error] message when it raised. *)
Lemma reply_is_send connection_id (type failed : string) collaborator w :
  reply connection_id type failed collaborator w
  = send_personal_message
      match collaborator with
      | Returns data => data_reply type data
      | Raises e => error_reply (failed +:+ exn_str e)
      end connection_id w.
Proof.
  unfold reply, try_except, bind, lift.
  destruct collaborator as [data|e]; [|done].
  pose proof (send_returns (data_reply type data) connection_id w) as Hret.
  by destruct (send_personal_message _ _ w) as [[[]|e] w'].
Qed.

Lemma kill_branch_is_send h connection_id pid w :
  try_except
    (let! pid := lift (Returns pid) in
     let! success := lift (kill_process h pid) in
     send_personal_message (process_kill_result pid success) connection_id)
    (λ e, send_personal_message
            (error_reply ("Failed to kill process: " +:+ exn_str e))
            connection_id) w
  = send_personal_message
      match kill_process h pid with
      | Returns success => process_kill_result pid success
      | Raises e => error_reply ("Failed to kill process: " +:+ exn_str e)
      end connection_id w.
Proof.
  unfold try_except, bind, lift.
  destruct (kill_process h pid) as [success|e]; [|done].
  pose proof (send_returns (process_kill_result pid success) connection_id w)
    as Hret.
  by destruct (send_personal_message _ _ w) as [[[]|e] w'].
Qed.

(** What a request answered at once sends. *)
Lemma dispatch_reply_is_send h connection_id fields type reply_type :
  (type, reply_type) ∈ reply_types →
  assoc "type" fields = Some (JStr type) →
  ∃ m,
    (∀ w, dispatch h connection_id (JDict fields) w
          = send_personal_message m connection_id w)
    ∧ server_message m
    ∧ (get m "type" = Returns (JStr reply_type)
       ∨ get m "type" = Returns (JStr "error")).
Proof.
  intros Hin Htype. unfold reply_types in Hin.
  repeat (apply elem_of_cons in Hin as [[= -> ->]|Hin]);
    [| | | | | |by apply elem_of_nil in Hin].
  - eexists. split.
    { intros w. unfold dispatch, bind at 1, lift, get, get_default.
      rewrite Htype. cbn -[reply]. apply reply_is_send. }
    match goal with
    | |- server_message match ?x with _ => _ end ∧ _ => destruct x
    end; split; auto using sm_error; apply sm_data; set_solver.
  - eexists. split.
    { intros w. unfold dispatch, bind at 1, lift, get, get_default.
      rewrite Htype. cbn -[reply]. apply reply_is_send. }
    match goal with
    | |- server_message match ?x with _ => _ end ∧ _ => destruct x
    end; split; auto using sm_error; apply sm_data; set_solver.
  - eexists. split.
    { intros w. unfold dispatch, bind at 1, lift, get, get_default.
      rewrite Htype. cbn -[reply]. apply reply_is_send. }
    match goal with
    | |- server_message match ?x with _ => _ end ∧ _ => destruct x
    end; split; auto using sm_error; apply sm_data; set_solver.
  - eexists. split.
    { intros w. unfold dispatch, bind at 1, lift, get, get_default.
      rewrite Htype. cbn -[try_except bind lift send_personal_message].
      apply kill_branch_is_send. }
    destruct (kill_process h _) as [success|e] eqn:Hkill;
      [apply kill_process_true in Hkill as ->|];
      split; auto using sm_error, sm_killed.
  - eexists. split.
    { intros w. unfold dispatch, bind at 1, lift, get, get_default.
      rewrite Htype. cbn -[reply]. apply reply_is_send. }
    match goal with
    | |- server_message match ?x with _ => _ end ∧ _ => destruct x
    end; split; auto using sm_error; apply sm_data; set_solver.
  - eexists. split.
    { intros w. unfold dispatch, bind at 1, lift, get, get_default.
      rewrite Htype. cbn -[reply]. apply reply_is_send. }
    match goal with
    | |- server_message match ?x with _ => _ end ∧ _ => destruct x
    end; split; auto using sm_error; apply sm_data; set_solver.
Qed.

(** X8.  Every request that is answered at once ([get_system_info],
    [get_metrics], [get_processes], [kill_process], [get_containers],
    [get_network_stats]) gets exactly one push, whether the collaborator
    returned or raised: the reply of the request's own type or an [error]
    message.  The turn returns normally, so the receive loop goes on, and
    the push is written as one frame when the session's channel works. *)
Theorem answered_request_gets_one_push
    h connection_id fields type reply_type w :
  (type, reply_type) ∈ reply_types →
  assoc "type" fields = Some (JStr type) →
  let r := dispatch h connection_id (JDict fields) w in
  r.1 = Returns ()
  ∧ ∃ m,
      calls r.2 = (calls w ++ [Push connection_id m])%list
      ∧ (get m "type" = Returns (JStr reply_type)
         ∨ get m "type" = Returns (JStr "error"))
      ∧ (∀ websocket,
           active_connections (manager w) !! connection_id = Some websocket →
           websocket ∉ broken w →
           sent r.2 = (sent w ++ [(websocket, m)])%list).
Proof.
  intros Hin Htype r. subst r.
  destruct (dispatch_reply_is_send h connection_id fields type reply_type
              Hin Htype) as (m & Hsend & _ & Hm).
  rewrite Hsend. split; [apply send_returns|].
  exists m. split; [apply send_calls|]. split; [exact Hm|].
  intros websocket Hsome Hok.
  by rewrite (send_delivered _ _ _ _ Hsome Hok).
Qed.
Lemma disconnect_endpoints connection_id w :
  endpoints (disconnect connection_id w) = endpoints w.
Proof. unfold disconnect. by destruct (background_tasks _ !! _). Qed.

Lemma send_endpoints message connection_id w :
  endpoints (send_personal_message message connection_id w).2 = endpoints w.
Proof.
  destruct (active_connections (manager w) !! connection_id)
    as [websocket|] eqn:E.
  - destruct (decide (websocket ∈ broken w)) as [Hb|Hb].
    + rewrite (send_broken _ _ _ _ E Hb). cbn [snd].
      by rewrite disconnect_endpoints.
    + by rewrite (send_delivered _ _ _ _ E Hb).
  - by rewrite (send_unregistered _ _ _ E).
Qed.

Lemma subscribe_outcome connection_id topic w :
  let r := subscribe connection_id topic w in
  endpoints r.2 = endpoints w
  ∧ (r.1 = Returns ()
     ↔ unhashable topic
       && bool_decide (is_Some (subscriptions (manager w) !! connection_id))
       = false).
Proof.
  unfold subscribe, bind, lift, modify.
  destruct (subscriptions (manager w) !! connection_id) as [topics|] eqn:E.
  - rewrite bool_decide_eq_true_2 by eauto. rewrite andb_true_r.
    by destruct topic.
  - rewrite bool_decide_eq_false_2 by (by intros [? ?]).
    by rewrite andb_false_r.
Qed.

Lemma unsubscribe_outcome connection_id topic w :
  let r := unsubscribe connection_id topic w in
  endpoints r.2 = endpoints w
  ∧ (r.1 = Returns ()
     ↔ unhashable topic
       && bool_decide (is_Some (subscriptions (manager w) !! connection_id))
       = false).
Proof.
  unfold unsubscribe, bind, lift, modify.
  destruct (subscriptions (manager w) !! connection_id) as [topics|] eqn:E.
  - rewrite bool_decide_eq_true_2 by eauto. rewrite andb_true_r.
    by destruct topic.
  - rewrite bool_decide_eq_false_2 by (by intros [? ?]).
    by rewrite andb_false_r.
Qed.

Lemma dispatch_dict h connection_id fields w :
  dispatch h connection_id (JDict fields) w
  = let field key := default JNull (assoc key fields) in
    let type := field "type" in
    if json_eqb_str type "subscribe" then
      if truthy (field "topic") then subscribe connection_id (field "topic") w
      else (Returns (), w)
    else if json_eqb_str type "unsubscribe" then
      if truthy (field "topic")
      then unsubscribe connection_id (field "topic") w
      else (Returns (), w)
    else if json_eqb_str type "get_system_info" then
      reply connection_id "system_info" "Failed to fetch system info: "
            (get_system_info h) w
    else if json_eqb_str type "get_metrics" then
      reply connection_id "metrics" "Failed to fetch metrics: "
            (get_system_metrics h) w
    else if json_eqb_str type "get_processes" then
      reply connection_id "processes_data" "Failed to fetch processes: "
            (get_processes h (default (JInt 20) (assoc "limit" fields))) w
    else if json_eqb_str type "kill_process" then
      send_personal_message
        match kill_process h (field "pid") with
        | Returns success => process_kill_result (field "pid") success
        | Raises e => error_reply ("Failed to kill process: " +:+ exn_str e)
        end connection_id w
    else if json_eqb_str type "get_containers" then
      reply connection_id "containers_data" "Failed to fetch containers: "
            (get_docker_containers h) w
    else if json_eqb_str type "container_action" then
      if truthy (field "container_id") && truthy (field "action") then
        (let! task := create_task
                        (handle_container_action_coro connection_id
                           (field "container_id") (field "action")) in
         record_task connection_id task) w
      else (Returns (), w)
    else if json_eqb_str type "get_container_logs" then
      if truthy (field "container_id") then
        (let! task := create_task
                        (stream_container_logs_coro connection_id
                           (field "container_id")
                           (default (JInt 100) (assoc "tail" fields))
                           (default (JBool false) (assoc "follow" fields))) in
         record_task connection_id task) w
      else (Returns (), w)
    else if json_eqb_str type "get_network_stats" then
      reply connection_id "network_stats" "Failed to fetch network stats: "
            (get_network_stats h) w
    else (Returns (), w).
Proof.
  cbv zeta. unfold dispatch, bind at 1, lift, get, get_default.
  repeat match goal with
  | |- (if ?b then _ else _) _ = _ => destruct b
  end; try reflexivity.
  - unfold bind. by destruct (truthy _).
  - unfold bind. by destruct (truthy _).
  - apply kill_branch_is_send.
  - unfold bind at 1 2. by destruct (_ && _).
  - unfold bind at 1 2 3. by destruct (truthy _).
Qed.

Lemma dispatch_outcome h connection_id fields w :
  let r := dispatch h connection_id (JDict fields) w in
  endpoints r.2 = endpoints w
  ∧ (r.1 = Returns ()
     ↔ ends_session connection_id (Json (JDict fields)) w = false).
Proof.
  intros r. subst r. rewrite dispatch_dict. cbv zeta. cbn [ends_session].
  destruct (json_eqb_str _ "subscribe").
  { cbn [orb]. destruct (truthy _); cbn [andb]; [apply subscribe_outcome|done]. }
  destruct (json_eqb_str _ "unsubscribe").
  { cbn [orb].
    destruct (truthy _); cbn [andb]; [apply unsubscribe_outcome|done]. }
  cbn [orb andb].
  repeat match goal with
  | |- context [if ?b then _ else _] => destruct b
  end;
  rewrite ?reply_is_send, ?send_endpoints, ?send_returns; done.
Qed.

(** X9.  The frames that end a session are exactly the close of the peer,
    a frame that is not a text frame, a text that is not JSON, a JSON value
    that is not an object, and a [subscribe] or [unsubscribe] whose topic
    is a non-empty list or dict (for a key that has a subscription set).
    On such a frame the endpoint unregisters the key and returns; on every
    other frame, whatever the collaborators do, the turn returns normally
    and the endpoint reads on.  The JSON values are those of [json]: a
    message that holds a float is not covered. *)
Theorem session_ends_exactly_on h websocket connection_id f w :
  endpoints w !! websocket = Some connection_id →
  let w' := step_endpoint h websocket f w in
  ((iteration h connection_id f w).1 = Returns ()
   ↔ ends_session connection_id f w = false)
  ∧ (ends_session connection_id f w = true →
     endpoints w' !! websocket = None ∧ ¬ registered connection_id w')
  ∧ (ends_session connection_id f w = false →
     endpoints w' !! websocket = Some connection_id
     ∧ w' = (iteration h connection_id f w).2).
Proof.
  intros Hopen w'.
  assert (Hturn :
    endpoints (iteration h connection_id f w).2 = endpoints w
    ∧ ((iteration h connection_id f w).1 = Returns ()
       ↔ ends_session connection_id f w = false)).
  { unfold iteration, receive, bind at 1, lift.
    destruct f as [| |data|[| | | | |fields]]; try done.
    apply dispatch_outcome. }
  destruct Hturn as [Hendpoints Hiff]. split; [exact Hiff|].
  subst w'. unfold step_endpoint. rewrite Hopen.
  destruct (iteration h connection_id f w) as [[[]|e] w1] eqn:Hit;
    cbn [fst snd] in *.
  - split; [intros Hends|intros _].
    + apply proj1 in Hiff. specialize (Hiff eq_refl). congruence.
    + by rewrite Hendpoints.
  - split; [intros _|intros Hends].
    + split; [cbn; apply lookup_delete_eq|].
      apply disconnect_not_registered.
    + apply proj2 in Hiff. by specialize (Hiff Hends).
Qed.

(** X10.  Registration is by key, not by socket.  When two endpoints run
    under the same key and the one socket closes, its endpoint unregisters
    the key for both: the other endpoint keeps reading, but no request it
    answers at once reaches its socket any more. *)
Theorem closing_one_socket_unregisters_the_key
    h websocket other connection_id fields type reply_type w :
  websocket ≠ other →
  endpoints w !! websocket = Some connection_id →
  endpoints w !! other = Some connection_id →
  (type, reply_type) ∈ reply_types →
  assoc "type" fields = Some (JStr type) →
  let w1 := step_endpoint h websocket Closed w in
  let w2 := step_endpoint h other (Json (JDict fields)) w1 in
  ¬ registered connection_id w1
  ∧ endpoints w1 !! other = Some connection_id
  ∧ sent w2 = sent w
  ∧ endpoints w2 !! other = Some connection_id.
Proof.
  intros Hne Hopen Hother Hin Htype w1 w2.
  assert (Hw1 : w1 = set_endpoints (delete websocket (endpoints w))
                                   (disconnect connection_id w)).
  { subst w1. unfold step_endpoint. by rewrite Hopen. }
  assert (Hnot : ¬ registered connection_id w1).
  { rewrite Hw1. apply disconnect_not_registered. }
  assert (Hother1 : endpoints w1 !! other = Some connection_id).
  { rewrite Hw1. cbn. by rewrite lookup_delete_ne. }
  assert (Hsent1 : sent w1 = sent w).
  { rewrite Hw1. apply disconnect_sent. }
  destruct (dispatch_reply_is_send h connection_id fields type reply_type
              Hin Htype) as (m & Hsend & _).
  assert (Hw2 : w2 = record_call (Push connection_id m) w1).
  { subst w2. unfold step_endpoint. rewrite Hother1.
    unfold iteration, receive, bind, lift. rewrite Hsend.
    rewrite send_unregistered; [done|].
    by apply eq_None_not_Some. }
  split; [exact Hnot|]. split; [exact Hother1|].
  rewrite Hw2. by split.
Qed.


Lemma send_unregistered_quiet message connection_id w :
  ¬ registered connection_id w →
  let w' := (send_personal_message message connection_id w).2 in
  sent w' = sent w ∧ ¬ registered connection_id w'.
Proof.
  intros Hnot. rewrite send_unregistered by by apply eq_None_not_Some.
  by split.
Qed.

(** X12.  No frame reaches a session that is no longer registered.  A
    background coroutine of a key that has no channel, whether its task is
    the recorded one or an older one, runs on without writing any frame,
    and leaves the key unregistered. *)
Theorem unregistered_session_gets_no_frame h c p w :
  ¬ registered (coroutine_key c) w →
  let r := advance h c p w in
  sent r.2 = sent w ∧ ¬ registered (coroutine_key c) r.2.
Proof.
  intros Hnot.
  assert (Hnone : active_connections (manager w) !! coroutine_key c = None)
    by by apply eq_None_not_Some.
  assert (Hfinish : ∀ container_id action w1,
    sent w1 = sent w → ¬ registered (coroutine_key c) w1 →
    let w2 := (finish_action h (coroutine_key c) container_id action w1).2 in
    sent w2 = sent w ∧ ¬ registered (coroutine_key c) w2).
  { intros container_id action w1 Hsent1 Hnot1.
    unfold finish_action, run_action, action_failed, try_except, bind,
      modify, lift.
    destruct (execute_container_action h container_id action) as [msg|e];
      cbn -[send_personal_message].
    - match goal with
      | |- context [send_personal_message ?m ?k ?x] =>
          pose proof (send_returns m k x) as Hret;
          destruct (send_unregistered_quiet m k x Hnot1) as [Hs Hr];
          destruct (send_personal_message m k x) as [[[]|e] w2];
          [|discriminate Hret]
      end.
      cbn in *. split; [congruence|done].
    - match goal with
      | |- context [send_personal_message ?m ?k ?x] =>
          destruct (send_unregistered_quiet m k x Hnot1) as [Hs Hr]
      end.
      split; [cbn in *; congruence|done]. }
  destruct c as [cid container_id action|cid container_id tail follow];
    cbn [coroutine_key] in *.
  - unfold advance.
    destruct p; try (cbn [snd]; by apply Hfinish).
    unfold notify_start, bind, lift.
    destruct (capitalize_json action) as [capitalized|e].
    + match goal with
      | |- context [send_personal_message ?m ?k w] =>
          pose proof (send_returns m k w) as Hret;
          destruct (send_unregistered_quiet m k w Hnot) as [Hs Hr];
          destruct (send_personal_message m k w) as [[[]|e] w1];
          [|discriminate Hret]
      end.
      unfold send_awaits. rewrite Hnone. cbn [snd] in *.
      by apply Hfinish.
    + cbn [snd]. unfold action_failed. by apply send_unregistered_quiet.
  - cbn [advance snd].
    unfold stream_container_logs, try_except, bind, modify, lift.
    destruct (get_container_logs h container_id tail) as [logs|e];
      cbn -[send_personal_message].
    + match goal with
      | |- context [send_personal_message ?m ?k ?x] =>
          pose proof (send_returns m k x) as Hret;
          destruct (send_unregistered_quiet m k x Hnot) as [Hs Hr];
          destruct (send_personal_message m k x) as [[[]|e] w2];
          [|discriminate Hret]
      end.
      by cbn in *.
    + match goal with
      | |- context [send_personal_message ?m ?k ?x] =>
          by destruct (send_unregistered_quiet m k x Hnot) as [Hs Hr]
      end.
Qed.
End dispatcher.

Lemma unknown_type_is_ignored_witness :
  dispatch host_ok "c1" (JDict [("type", JStr "ping")]) world_c1
  = (Returns (), world_c1)
  ∧ dispatch host_ok "c1" (JDict [("topic", JStr "metrics")]) world_c1
    = (Returns (), world_c1).
Proof.
  split; apply unknown_type_is_ignored; intros known Hin;
    repeat (apply elem_of_cons in Hin as [->|Hin]; [reflexivity|]);
    by apply elem_of_nil in Hin.
Defined.

Lemma incomplete_request_is_dropped_witness :
  dispatch host_ok "c1"
    (JDict [("type", JStr "container_action"); ("container_id", JStr "abc")])
    world_c1
  = (Returns (), world_c1)
  ∧ dispatch host_ok "c1"
      (JDict [("type", JStr "subscribe"); ("topic", JStr "")]) world_c1
    = (Returns (), world_c1).
Proof.
  split; apply incomplete_request_is_dropped.
  - right. left. split; [reflexivity|]. right. reflexivity.
  - left. split; [left; reflexivity|reflexivity].
Defined.

Lemma answered_request_gets_one_push_witness :
  let r := dispatch host_no_docker "c1" (request "get_containers") world_c1 in
  r.1 = Returns ()
  ∧ sent r.2
    = [(1%nat,
        error_reply "Failed to fetch containers: Docker command not found")].
Proof.
  assert (Hin : ("get_containers", "containers_data") ∈ reply_types).
  { unfold reply_types. set_solver. }
  destruct (answered_request_gets_one_push host_no_docker "c1"
              [("type", JStr "get_containers")] "get_containers"
              "containers_data" world_c1 Hin eq_refl)
    as (Hret & m & _ & _ & _).
  intros r. split; [exact Hret|reflexivity].
Defined.

Lemma session_ends_exactly_on_witness :
  let closes f := step_endpoint host_ok 1%nat f world_c1 in
  endpoints (closes Binary) !! 1%nat = None
  ∧ endpoints (closes (Json (JList []))) !! 1%nat = None
  ∧ endpoints
      (closes (Json (JDict [("type", JStr "subscribe");
                            ("topic", JList [JStr "metrics"])])))
    !! 1%nat = None
  ∧ endpoints (closes (Json (request "kill_process"))) !! 1%nat = Some "c1".
Proof.
  assert (Hopen : endpoints world_c1 !! 1%nat = Some "c1") by reflexivity.
  intros closes. subst closes. cbn beta.
  split; [|split; [|split]].
  - by destruct (session_ends_exactly_on host_ok 1%nat "c1" Binary
                   world_c1 Hopen) as (_ & Hends & _);
      destruct (Hends eq_refl).
  - by destruct (session_ends_exactly_on host_ok 1%nat "c1" (Json (JList []))
                   world_c1 Hopen) as (_ & Hends & _);
      destruct (Hends eq_refl).
  - by destruct (session_ends_exactly_on host_ok 1%nat "c1"
                   (Json (JDict [("type", JStr "subscribe");
                                 ("topic", JList [JStr "metrics"])]))
                   world_c1 Hopen) as (_ & Hends & _);
      destruct (Hends eq_refl).
  - by destruct (session_ends_exactly_on host_ok 1%nat "c1"
                   (Json (request "kill_process")) world_c1 Hopen)
      as (_ & _ & Hgoes_on); destruct (Hgoes_on eq_refl).
Defined.

Lemma closing_one_socket_unregisters_the_key_witness :
  let w1 := step_endpoint host_ok 1%nat Closed world_same_key in
  let w2 :=
    step_endpoint host_ok 2%nat (Json (request "get_system_info")) w1 in
  active_connections (manager world_same_key) !! "c1" = Some 2%nat
  ∧ ¬ registered "c1" w1
  ∧ endpoints w2 !! 2%nat = Some "c1"
  ∧ sent w2 = [].
Proof.
  assert (Hin : ("get_system_info", "system_info") ∈ reply_types).
  { unfold reply_types. set_solver. }
  destruct (closing_one_socket_unregisters_the_key host_ok 1%nat 2%nat "c1"
              [("type", JStr "get_system_info")] "get_system_info"
              "system_info" world_same_key ltac:(discriminate) eq_refl
              eq_refl Hin eq_refl) as (Hnot & _ & Hsent & Hopen).
  intros w1 w2. split; [reflexivity|]. split; [exact Hnot|].
  split; [exact Hopen|exact Hsent].
Defined.


Lemma unregistered_session_gets_no_frame_witness :
  let w := disconnect "c1" world_c1 in
  let c := handle_container_action_coro "c1" (JStr "abc") (JStr "restart") in
  sent (advance host_ok c Created w).2 = []
  ∧ calls (advance host_ok c Created w).2
    = [Push "c1"
         (container_action_result (JStr "abc") (JStr "restart") "in_progress"
            "Restart requested...");
       Blocking "execute_container_action" [JStr "abc"; JStr "restart"];
       Push "c1"
         (container_action_result (JStr "abc") (JStr "restart") "success"
            "Container restarted successfully")].
Proof.
  intros w c.
  destruct (unregistered_session_gets_no_frame host_ok c Created w)
    as [Hsent _].
  { apply disconnect_not_registered. }
  split; [exact Hsent|reflexivity].
Defined.

(** ** Every run of the process *)

(** X13.  In every run from the start, whatever the requests, the task
    resumptions and the transport failures, a key has a channel exactly
    when it has a subscription set. *)
Theorem every_run_keeps_registry_consistent h schedule connection_id :
  let w := run h schedule initial_world in
  registered connection_id w
  ↔ is_Some (subscriptions (manager w) !! connection_id).
Proof.
  intros w. apply registered_iff_subscribed.
  subst w. apply run_registry_inv.
Qed.

(** X14.  In every run from the start, every frame the server writes is an
    object with a [type] field that names one of its ten message types;
    the server sends nothing else. *)
Theorem every_frame_has_a_server_type h schedule websocket m :
  (websocket, m) ∈ sent (run h schedule initial_world) →
  ∃ type,
    get m "type" = Returns (JStr type)
    ∧ type ∈ ["system_info"; "metrics"; "processes_data"; "containers_data";
              "network_stats"; "error"; "process_kill_result";
              "container_action_result"; "container_logs";
              "container_logs_error"].
Proof.
  intros Hin.
  pose proof (run_server_messages h schedule) as Hall.
  unfold sent_all in Hall. rewrite Forall_forall in Hall.
  specialize (Hall _ Hin). cbn in Hall.
  destruct Hall as [type data Htypes| | | | |];
    eexists; (split; [reflexivity|]); set_solver.
Qed.

Lemma every_frame_has_a_server_type_witness :
  ∃ type,
    get (data_reply "system_info" (JDict [("hostname", JStr "tars")])) "type"
    = Returns (JStr type)
    ∧ type ≠ "".
Proof.
  destruct (every_frame_has_a_server_type host_ok
              [Open 1%nat "c1";
               Receive 1%nat (Json (request "get_system_info"))]
              1%nat
              (data_reply "system_info" (JDict [("hostname", JStr "tars")])))
    as (type & Htype & _).
  { apply list_elem_of_singleton. reflexivity. }
  exists type. split; [exact Htype|].
  cbn in Htype. injection Htype as <-. discriminate.
Defined.

(** ** The docker and process collaborators *)


Section docker_cli.
Implicit Types (h : Host) (container_id action tail pid : json).

(** X15.  [kill_process] returns [True] exactly when [psutil.Process(pid)]
    and [terminate()] return and then either [wait] returns, or [wait]
    times out and [kill()] returns.  In every other case it raises a plain
    [Exception], whose text is ["Process not found"], ["Permission denied
    to kill process"], or ["Failed to kill process: "] followed by the
    text of the exception that was caught. *)
Theorem kill_process_outcomes h pid :
  (kill_process h pid = Returns true
   ↔ psutil_Process h pid = Returns ()
     ∧ proc_terminate h pid = Returns ()
     ∧ (proc_wait h pid = Returns ()
        ∨ (∃ e, proc_wait h pid = Raises e
                ∧ exn_class e = PsutilTimeoutExpired
                ∧ proc_kill h pid = Returns ())))
  ∧ (∀ e, kill_process h pid = Raises e →
       e = Exception "Process not found"
       ∨ e = Exception "Permission denied to kill process"
       ∨ ∃ caught, e = Exception ("Failed to kill process: " +:+ exn_str caught)).
Proof.
  unfold kill_process, catch_class, outcome_catch, mbind, outcome_mbind,
    outcome_bind.
  destruct (psutil_Process h pid) as [[]|e1].
  2: { split; [split; [by destruct (exn_class e1)|naive_solver]|].
       intros e. destruct (exn_class e1); intros [= <-]; eauto. }
  destruct (proc_terminate h pid) as [[]|e2].
  2: { split; [split; [by destruct (exn_class e2)|naive_solver]|].
       intros e. destruct (exn_class e2); intros [= <-]; eauto. }
  destruct (proc_wait h pid) as [[]|e3]; [naive_solver|].
  case_bool_decide as Hclass.
  - apply list_elem_of_singleton in Hclass.
    destruct (proc_kill h pid) as [[]|e4].
    + split; [|done]. split; [|done]. intros _. repeat split. right. eauto.
    + split; [split; [by destruct (exn_class e4)|naive_solver]|].
      intros e. destruct (exn_class e4); intros [= <-]; eauto.
  - rewrite list_elem_of_singleton in Hclass.
    split; [split; [by destruct (exn_class e3)|naive_solver]|].
    intros e. destruct (exn_class e3); intros [= <-]; eauto.
Qed.


End docker_cli.


(** ** [get_processes] *)

Section sorted_facts.
Context {A K : Type} (lt : K → K → Prop) `{!RelDecision lt} (key : A → K).
Hypothesis lt_asym : ∀ x y, lt x y → ¬ lt y x.
Hypothesis lt_cotrans : ∀ x y z, ¬ lt x y → ¬ lt y z → ¬ lt x z.

Lemma insert_reverse_Permutation x l :
  insert_reverse lt key x l ≡ₚ x :: l.
Proof.
  induction l as [|y l IH]; [done|]. cbn.
  destruct (decide _); [|done]. by rewrite IH, Permutation_swap.
Qed.

Lemma sorted_reverse_Permutation l : sorted_reverse lt key l ≡ₚ l.
Proof.
  induction l as [|x l IH]; [done|]. cbn.
  by rewrite insert_reverse_Permutation, IH.
Qed.

Lemma insert_reverse_sorted x l :
  StronglySorted (λ a b, ¬ lt (key a) (key b)) l →
  StronglySorted (λ a b, ¬ lt (key a) (key b)) (insert_reverse lt key x l).
Proof.
  induction 1 as [|y l Hsorted IH Hall]; cbn.
  { repeat constructor. }
  destruct (decide _) as [Hlt|Hge].
  - constructor; [done|].
    rewrite insert_reverse_Permutation. constructor; [by apply lt_asym|done].
  - constructor; [by constructor|]. constructor; [done|].
    eapply Forall_impl; [done|]. cbn. eauto.
Qed.

Lemma sorted_reverse_sorted l :
  StronglySorted (λ a b, ¬ lt (key a) (key b)) (sorted_reverse lt key l).
Proof.
  induction l as [|x l IH]; cbn; [constructor|by apply insert_reverse_sorted].
Qed.
End sorted_facts.

Section processes.
Import linux_utils.

Lemma collect_take procs all_processes :
  Z.of_nat (length all_processes) < 2000 →
  collect procs all_processes
  = (all_processes
     ++ take (Z.to_nat (2000 - Z.of_nat (length all_processes)))
             (to_process <$> procs))%list.
Proof.
  revert all_processes.
  induction procs as [|info rest IH]; intros acc Hlen; cbn [collect].
  { by rewrite fmap_nil, take_nil, app_nil_r. }
  rewrite length_app. cbn [length].
  destruct (Z.leb_spec 2000 (Z.of_nat (length acc + 1))) as [Hfull|Hroom].
  - replace (Z.to_nat (2000 - Z.of_nat (length acc))) with 1%nat by lia.
    by rewrite fmap_cons.
  - rewrite IH by (rewrite length_app; cbn; lia).
    rewrite length_app. cbn [length].
    replace (Z.to_nat (2000 - Z.of_nat (length acc)))
      with (S (Z.to_nat (2000 - Z.of_nat (length acc + 1)))) by lia.
    by rewrite fmap_cons, <- app_assoc.
Qed.

Lemma combine_spec limit procs combined seen_pids :
  NoDup (pid <$> combined) →
  (∀ p, p ∈ combined → pid p ∈ seen_pids) →
  let r := combine limit procs combined seen_pids in
  NoDup (pid <$> r)
  ∧ (∀ p, p ∈ r → p ∈ combined ∨ p ∈ procs)
  ∧ (length r ≤ length combined + length procs)%nat
  ∧ Z.of_nat (length r) ≤ Z.max (Z.of_nat (length combined) + 1) limit.
Proof.
  revert combined seen_pids.
  induction procs as [|proc rest IH]; intros combined seen Hnodup Hseen;
    cbn [combine].
  { cbn. split_and!; [done|by left|lia|lia]. }
  destruct (decide (pid proc ∈ seen)) as [Hin|Hnew].
  { destruct (IH combined seen Hnodup Hseen) as (? & Hsub & ? & ?).
    split_and!; [done| |cbn; lia|done].
    intros p Hp. destruct (Hsub p Hp); [by left|right; by constructor]. }
  assert (Hnodup' : NoDup (pid <$> (combined ++ [proc])%list)).
  { rewrite fmap_app. apply NoDup_app. split_and!; [done| |apply NoDup_singleton].
    intros x Hx. cbn. rewrite list_elem_of_singleton. intros ->.
    apply list_elem_of_fmap in Hx as (p & Hpid & Hp).
    apply Hnew. rewrite Hpid. by apply Hseen. }
  assert (Hseen' : ∀ p, p ∈ (combined ++ [proc])%list
                        → pid p ∈ seen ∪ {[pid proc]}).
  { intros p [Hp|Hp%list_elem_of_singleton]%elem_of_app.
    - apply elem_of_union_l. by apply Hseen.
    - subst p. apply elem_of_union_r. by apply elem_of_singleton. }
  assert (Hmem : ∀ p, p ∈ (combined ++ [proc])%list
                      → p ∈ combined ∨ p ∈ proc :: rest).
  { intros p [Hp|Hp%list_elem_of_singleton]%elem_of_app; [by left|].
    subst p. right. by left. }
  destruct (Z.leb_spec limit (Z.of_nat (length (combined ++ [proc])%list)))
    as [Hstop|Hgo].
  - cbv zeta. rewrite length_app in *. cbn [length] in *.
    split_and!; [done|done|lia|lia].
  - destruct (IH _ _ Hnodup' Hseen') as (? & Hsub & Hlen & Hmax).
    rewrite length_app in *. cbn [length] in *.
    split_and!; [done| |lia|lia].
    intros p Hp. destruct (Hsub p Hp) as [Hp'|Hp'].
    + by apply Hmem.
    + right. by right.
Qed.

Lemma StronglySorted_weaken {A} (R1 R2 : relation A) l :
  (∀ a b, R1 a b → R2 a b) → StronglySorted R1 l → StronglySorted R2 l.
Proof.
  intros HR. induction 1 as [|x l ? IH Hall]; constructor; [done|].
  eapply Forall_impl; [done|]. apply HR.
Qed.

Lemma Qclt_asym (x y : Qc) : (x < y)%Qc → ¬ (y < x)%Qc.
Proof. intros Hxy Hyx. by apply (Qclt_not_le _ _ Hxy), Qclt_le_weak. Qed.

Lemma Qclt_cotrans (x y z : Qc) :
  ¬ (x < y)%Qc → ¬ (y < z)%Qc → ¬ (x < z)%Qc.
Proof.
  intros Hxy%Qcnot_lt_le Hyz%Qcnot_lt_le. apply Qcle_not_lt.
  by eapply Qcle_trans.
Qed.

Lemma Zlt_cotrans (x y z : Z) : ¬ x < y → ¬ y < z → ¬ x < z.
Proof. lia. Qed.

Lemma all_processes_take procs :
  collect procs [] = take 2000 (to_process <$> procs).
Proof. by rewrite collect_take. Qed.

Lemma get_processes_small procs (limit : Z) :
  limit ≤ 20 →
  get_processes (Returns procs) (JInt limit)
  = let all_processes := take 2000 (to_process <$> procs) in
    combine limit
      (take 10 (sorted_reverse Qclt cpu_percent all_processes)
       ++ take 10 (sorted_reverse Z.lt mem_bytes all_processes))%list [] ∅.
Proof.
  intros Hlimit. unfold get_processes. cbn [mbind outcome_mbind outcome_bind as_int].
  rewrite all_processes_take.
  by destruct (Z.leb_spec limit 20); [|lia].
Qed.

Lemma get_processes_large procs (limit : Z) :
  20 < limit →
  get_processes (Returns procs) (JInt limit)
  = take (Z.to_nat limit)
      (sorted_reverse Qclt cpu_percent (take 2000 (to_process <$> procs))).
Proof.
  intros Hlimit. unfold get_processes. cbn [mbind outcome_mbind outcome_bind as_int].
  rewrite all_processes_take.
  by destruct (Z.leb_spec limit 20); [lia|].
Qed.

(** X18.  For an integer [limit] of at most 20, [get_processes] returns
    processes of the snapshot (at most its first 2000), no process id
    twice, at most 20 of them and at most [max 1 limit]. *)
Theorem get_processes_top_of_each procs (limit : Z) :
  limit ≤ 20 →
  let all_processes := take 2000 (to_process <$> procs) in
  let r := get_processes (Returns procs) (JInt limit) in
  NoDup (pid <$> r)
  ∧ r ⊆ all_processes
  ∧ (length r ≤ 20)%nat
  ∧ Z.of_nat (length r) ≤ Z.max 1 limit.
Proof.
  intros Hlimit all r. subst r. rewrite get_processes_small by done.
  cbv zeta. fold all.
  destruct (combine_spec limit
              (take 10 (sorted_reverse Qclt cpu_percent all)
               ++ take 10 (sorted_reverse Z.lt mem_bytes all))%list [] ∅)
    as (Hnodup & Hsub & Hlen & Hmax); [constructor|by intros ? ?%elem_of_nil|].
  split_and!; [done| | |done].
  - intros p Hp. destruct (Hsub p Hp) as [?%elem_of_nil|Hin]; [done|].
    apply elem_of_app in Hin as [Hin|Hin];
      apply subseteq_take in Hin;
      by rewrite sorted_reverse_Permutation in Hin.
  - etrans; [exact Hlen|]. rewrite length_app, !length_take.
    cbn [length]. lia.
Qed.

(** X19.  For an integer [limit] above 20, [get_processes] returns
    [min limit n] processes of the [n] in the snapshot, in descending
    order of CPU use, and every process it leaves out uses no more CPU
    than any it returns. *)
Theorem get_processes_top_by_cpu procs (limit : Z) :
  20 < limit →
  let all_processes := take 2000 (to_process <$> procs) in
  let r := get_processes (Returns procs) (JInt limit) in
  r ⊆ all_processes
  ∧ Z.of_nat (length r) = Z.min limit (Z.of_nat (length all_processes))
  ∧ StronglySorted (λ a b, (cpu_percent b ≤ cpu_percent a)%Qc) r
  ∧ ∀ p q, p ∈ r → q ∈ all_processes → q ∉ r →
           (cpu_percent q ≤ cpu_percent p)%Qc.
Proof.
  intros Hlimit all r. subst r. rewrite get_processes_large by done.
  fold all.
  pose proof (sorted_reverse_sorted Qclt cpu_percent Qclt_asym Qclt_cotrans all)
    as Hsorted.
  pose proof (sorted_reverse_Permutation Qclt cpu_percent all) as Hperm.
  rewrite <- (take_drop (Z.to_nat limit) (sorted_reverse Qclt cpu_percent all))
    in Hsorted.
  split_and!.
  - intros p Hp%subseteq_take. by rewrite Hperm in Hp.
  - rewrite length_take, Hperm. lia.
  - apply StronglySorted_app_1_l in Hsorted.
    eapply StronglySorted_weaken; [|exact Hsorted].
    intros a b. apply Qcnot_lt_le.
  - intros p q Hp Hq Hnot. apply Qcnot_lt_le.
    eapply (StronglySorted_app_1_elem_of _ _ _ _ _ Hsorted); [done|].
    rewrite <- Hperm, <- (take_drop (Z.to_nat limit)) in Hq.
    by apply elem_of_app in Hq as [?|?].
Qed.

(** X20.  With a [limit] of zero or less and at least one process
    running, [get_processes] returns exactly one process, one with the
    highest CPU use: the length is compared with [limit] only after an
    entry was appended. *)
Theorem get_processes_nonpositive_limit procs (limit : Z) :
  limit ≤ 0 → procs ≠ [] →
  let all_processes := take 2000 (to_process <$> procs) in
  ∃ p, get_processes (Returns procs) (JInt limit) = [p]
       ∧ p ∈ all_processes
       ∧ ∀ q, q ∈ all_processes → (cpu_percent q ≤ cpu_percent p)%Qc.
Proof.
  intros Hlimit Hprocs all. rewrite get_processes_small by lia.
  cbv zeta. fold all.
  pose proof (sorted_reverse_sorted Qclt cpu_percent Qclt_asym Qclt_cotrans all)
    as Hsorted.
  pose proof (sorted_reverse_Permutation Qclt cpu_percent all) as Hperm.
  destruct (sorted_reverse Qclt cpu_percent all) as [|p rest].
  { apply Permutation_nil_l in Hperm. destruct procs; [done|by cbn in Hperm]. }
  exists p. split_and!.
  - cbn [take app combine]. rewrite decide_False by set_solver.
    cbn [app length]. by destruct (Z.leb_spec limit (Z.of_nat 1)); [|lia].
  - rewrite <- Hperm. by left.
  - intros q Hq. rewrite <- Hperm in Hq.
    apply elem_of_cons in Hq as [->|Hq]; [apply Qcle_refl|].
    apply StronglySorted_inv in Hsorted as [_ Hall].
    rewrite Forall_forall in Hall. by apply Qcnot_lt_le, Hall.
Qed.

(** X21.  [get_processes] returns the empty list when [psutil] raises
    while the processes are read, and when [limit] is [None], a string, a
    list or a dict, whatever processes run: none of these can be compared
    with 20. *)
Theorem get_processes_swallows_errors process_iter limit :
  (∀ e, get_processes (Raises e) limit = [])
  ∧ (limit = JNull ∨ (∃ s, limit = JStr s) ∨ (∃ l, limit = JList l)
     ∨ (∃ fields, limit = JDict fields) →
     get_processes process_iter limit = []).
Proof.
  split; [done|]. intros Hlimit. unfold get_processes.
  destruct process_iter as [procs|e]; [|done]. cbn.
  by destruct Hlimit as [->|[[s ->]|[[l ->]|[fields ->]]]].
Qed.
End processes.

(** ** [execute_power_action] *)

Section power.
Import linux_utils.

Lemma power_action_cases action :
  action ∈ ["reboot"; "shutdown"] → action = "reboot" ∨ action = "shutdown".
Proof. set_solver. Qed.

(** X22.  [execute_power_action] runs no command for an action other than
    [reboot] and [shutdown], and raises ["Failed to execute power action:
    Invalid power action"].  For these two it runs [/root/tars stop all]
    and then [shutdown -r +0] or [shutdown -h +0], in this order and on
    every host: the second command is run whatever the first one did.  It
    returns its message as soon as the [shutdown] command returns,
    whatever the exit status of either command. *)
Theorem execute_power_action_commands h action :
  (action ∉ ["reboot"; "shutdown"] →
     execute_power_action h action
     = (Raises (Exception
                  "Failed to execute power action: Invalid power action"),
        []))
  ∧ (action ∈ ["reboot"; "shutdown"] →
     let shutdown :=
       [JStr "shutdown";
        JStr (if String.eqb action "reboot" then "-r" else "-h");
        JStr "+0"] in
     (execute_power_action h action).2
     = [[JStr "/root/tars"; JStr "stop"; JStr "all"]; shutdown]
     ∧ ∀ result,
         subprocess_run h shutdown = Returns result →
         (execute_power_action h action).1
         = Returns
             (if String.eqb action "reboot"
              then "TARS containers stopped. System rebooting in 10 seconds"
              else "TARS containers stopped. System shutting down in 10 seconds")).
Proof.
  split.
  - intros Hinvalid. unfold execute_power_action.
    by rewrite bool_decide_false.
  - intros [-> | ->]%power_action_cases; cbv zeta.
    all: unfold execute_power_action, logged_catch, logged_bind, logged_run,
           logged_ret, logged_raise; cbn.
    all: destruct (subprocess_run h [JStr "/root/tars"; JStr "stop"; JStr "all"])
           as [stopped|e]; cbn.
    all: split; [by destruct (subprocess_run h _)|].
    all: by intros result ->.
Qed.
End power.

(** ** The TARS applications *)






Section tars_apps.
Import linux_utils.
Implicit Types (fs : Files) (h : Host).






End tars_apps.

(** ** The container list *)

Section containers.
Implicit Types (h : Host).

Lemma contains_prefix needle hay :
  String.prefix needle hay = true → contains needle hay = true.
Proof. intros H. destruct hay; cbn in *; by rewrite H. Qed.

Lemma contains_cons needle c hay :
  contains needle hay = true → contains needle (String c hay) = true.
Proof. intros H. cbn. rewrite H. apply orb_true_r. Qed.

Lemma prefix_cons_inv c needle a hay :
  String.prefix (String c needle) (String a hay) = true →
  String.prefix needle hay = true.
Proof. cbn. by destruct (ascii_dec c a). Qed.

Lemma contains_unhealthy_healthy status :
  contains "unhealthy" status = true → contains "healthy" status = true.
Proof.
  induction status as [|a status IH]; [done|].
  intros Hcontains.
  change (String.prefix "unhealthy" (String a status)
          || contains "unhealthy" status = true) in Hcontains.
  apply orb_true_iff in Hcontains as [Hprefix|Htail].
  - apply prefix_cons_inv in Hprefix.
    destruct status as [|b status]; [done|].
    apply prefix_cons_inv in Hprefix.
    by do 2 apply contains_cons; apply contains_prefix.
  - by apply contains_cons, IH.
Qed.

Lemma container_of_line_status line entry :
  entry ∈ container_of_line line →
  ∃ container_id name image status ports full_status,
    entry = JDict [("id", JStr container_id); ("name", JStr name);
                   ("image", JStr image); ("status", JStr status);
                   ("ports", JStr ports); ("full_status", JStr full_status)]
    ∧ status ∈ ["healthy"; "running"; "stopped"; "created"; "unknown"]
    ∧ (contains "Up" full_status = true →
       contains "unhealthy" full_status = true → status = "healthy").
Proof.
  unfold container_of_line.
  destruct (String.eqb (strip line) ""); [by intros ?%elem_of_nil|].
  destruct (split tab line) as [|container_id [|name [|image [|status rest]]]];
    try by intros ?%elem_of_nil.
  intros ->%list_elem_of_singleton. eexists _, _, _, _, _, _.
  split; [done|].
  destruct (contains "Up" status) eqn:Hup.
  - destruct (contains "healthy" status) eqn:Hhealthy.
    + split; [set_solver|done].
    + split; [|by intros _ ?%contains_unhealthy_healthy; congruence].
      destruct (contains "unhealthy" status) eqn:Hun; [|set_solver].
      apply contains_unhealthy_healthy in Hun. congruence.
  - split; [|done].
    destruct (contains "Exited" status); [set_solver|].
    destruct (contains "Created" status); set_solver.
Qed.

(** X25.  Every entry [get_docker_containers] returns has the six fields
    [id], [name], [image], [status], [ports] and [full_status], and its
    [status] is one of [healthy], [running], [stopped], [created] and
    [unknown]: never [unhealthy].  A container whose docker status says
    ["Up"] and ["unhealthy"] is reported [healthy], as the test for
    ["healthy"] comes first and every text that contains ["unhealthy"]
    contains ["healthy"]. *)
Theorem containers_are_never_unhealthy h r :
  get_docker_containers h = Returns r →
  ∃ containers,
    r = JList containers
    ∧ ∀ entry, entry ∈ containers →
        ∃ container_id name image status ports full_status,
          entry = JDict [("id", JStr container_id); ("name", JStr name);
                         ("image", JStr image); ("status", JStr status);
                         ("ports", JStr ports);
                         ("full_status", JStr full_status)]
          ∧ status ∈ ["healthy"; "running"; "stopped"; "created"; "unknown"]
          ∧ (contains "Up" full_status = true →
             contains "unhealthy" full_status = true → status = "healthy").
Proof.
  unfold get_docker_containers, outcome_catch, reraise, mbind, outcome_mbind,
    outcome_bind.
  destruct (subprocess_run h _) as [result|e];
    [|by destruct (exn_class e)].
  destruct (returncode result =? 0); cbn; [|done].
  intros [= <-]. eexists. split; [done|].
  intros entry (line & _ & Hentry)%list_elem_of_In%in_flat_map.
  by apply (container_of_line_status line), list_elem_of_In.
Qed.
End containers.

Lemma containers_are_never_unhealthy_witness :
  get_docker_containers host_unhealthy
  = Returns
      (JList [JDict [("id", JStr "abc"); ("name", JStr "web");
                     ("image", JStr "nginx"); ("status", JStr "healthy");
                     ("ports", JStr "80/tcp");
                     ("full_status", JStr "Up 2 hours (unhealthy)")]])
  ∧ ∃ containers,
      JList [JDict [("id", JStr "abc"); ("name", JStr "web");
                    ("image", JStr "nginx"); ("status", JStr "healthy");
                    ("ports", JStr "80/tcp");
                    ("full_status", JStr "Up 2 hours (unhealthy)")]]
      = JList containers
      ∧ ∀ entry, entry ∈ containers →
          ∃ container_id name image status ports full_status,
            entry = JDict [("id", JStr container_id); ("name", JStr name);
                           ("image", JStr image); ("status", JStr status);
                           ("ports", JStr ports);
                           ("full_status", JStr full_status)]
            ∧ status ∈ ["healthy"; "running"; "stopped"; "created"; "unknown"]
            ∧ (contains "Up" full_status = true →
               contains "unhealthy" full_status = true → status = "healthy").
Proof.
  split; [reflexivity|].
  apply (containers_are_never_unhealthy host_unhealthy). reflexivity.
Defined.

(** ** The HTTP handlers *)

Section http.
Variable http_str : Z → string → string.
Implicit Types (h : Host) (fs : linux_utils.Files).

(** X26.  The two kill endpoints answer [ok] exactly when [kill_process]
    returns.  When it raises, [kill_process_by_pid] answers with status
    400 and the text of the exception, and the handler of [app.py] with a
    200 response of status [error] and that text.  Their [else] branches, the
    status 500 of the one and the fixed text ["Failed to kill process"] of
    the other, are never taken. *)
Theorem kill_endpoints_report_the_exception h pid :
  let ok :=
    JDict [("status", JStr "ok");
           ("message", JStr ("Process " +:+ pretty pid +:+ " terminated"))] in
  match kill_process h (JInt pid) with
  | Returns _ =>
      kill_process_by_pid http_str h pid = Responds ok
      ∧ app.kill_process http_str h pid = Responds ok
  | Raises e =>
      kill_process_by_pid http_str h pid
      = Throws (HTTPException 400 (exn_str e))
      ∧ app.kill_process http_str h pid
        = Responds (JDict [("status", JStr "error");
                           ("message", JStr (exn_str e))])
  end.
Proof.
  unfold kill_process_by_pid, app.kill_process.
  destruct (kill_process h (JInt pid)) as [b|e] eqn:Hkill; [|done].
  apply kill_process_true in Hkill as ->. done.
Qed.

(** X27.  The two action endpoints of [app.py] answer an action other
    than [start], [stop] and [restart] with status 500, not 400: the
    [HTTPException] of status 400 is raised inside the [try] and caught by
    its [except Exception] clause, which raises one of status 500 whose
    detail is the text of the first.  Every error of the two endpoints has
    status 500. *)
Theorem invalid_action_is_answered_500 fs h base_dir target action :
  let container := app.execute_container_action http_str h target action in
  let application :=
    app.execute_app_action http_str fs h base_dir target action in
  (action ∉ ["start"; "stop"; "restart"] →
     let detail := http_str 400 "Invalid action. Use start, stop, or restart" in
     container = Throws (HTTPException 500 detail)
     ∧ application = Throws (HTTPException 500 detail))
  ∧ (∀ r, container = Throws r ∨ application = Throws r →
          ∃ detail, r = HTTPException 500 detail).
Proof.
  unfold app.execute_container_action, app.execute_app_action. cbv zeta.
  split.
  - intros Hinvalid. by rewrite !bool_decide_false.
  - intros r.
    destruct (bool_decide (action ∈ ["start"; "stop"; "restart"])); cbn.
    + destruct (execute_container_action h _ _),
        (linux_utils.execute_tars_app_action fs h _ _ _); cbn;
        intros [[=]|[=]]; eauto.
    + intros [[= <-]|[= <-]]; eauto.
Qed.

(** X28.  [list_containers] of [app.py] never answers with an error.
    Whenever [get_docker_containers] raises, and so when the docker
    binary is missing or the daemon is unreachable, it answers with the
    sample data: two containers, [tars-db] and [tars-redis], reported as
    running. *)
Theorem list_containers_answers_sample_data h :
  (∃ body, app.list_containers h = Responds body)
  ∧ (∀ e, get_docker_containers h = Raises e →
          app.list_containers h = Responds app.sample_containers)
  ∧ (docker_missing h →
     app.list_containers h = Responds app.sample_containers)
  ∧ (daemon_unreachable h →
     app.list_containers h = Responds app.sample_containers).
Proof.
  unfold app.list_containers. split_and!.
  - destruct (get_docker_containers h); cbn; eauto.
  - by intros e ->.
  - intros Hmissing. unfold get_docker_containers.
    edestruct Hmissing as [text ->]. done.
  - intros Hdaemon. unfold get_docker_containers.
    edestruct Hdaemon as (result & -> & Hcode%Z.eqb_neq & _).
    cbn. by rewrite Hcode.
Qed.

(** X29.  The power endpoint answers an invalid action with status 400
    and runs no command.  Every error it raises has status 400.  When
    it answers [ok], the action was valid and the two commands, the stop
    of the containers and the [shutdown], were run in this order. *)
Theorem power_endpoint_outcomes h action :
  let r := execute_power_action_endpoint http_str h action in
  (action ∉ ["reboot"; "shutdown"] →
     r = (Throws (HTTPException 400
                    "Failed to execute power action: Invalid power action"),
          []))
  ∧ (∀ x, r.1 = Throws x → ∃ detail, x = HTTPException 400 detail)
  ∧ (∀ body, r.1 = Responds body →
       action ∈ ["reboot"; "shutdown"]
       ∧ r.2 = [[JStr "/root/tars"; JStr "stop"; JStr "all"];
                [JStr "shutdown";
                 JStr (if String.eqb action "reboot" then "-r" else "-h");
                 JStr "+0"]]
       ∧ ∃ message,
           body = JDict [("status", JStr "ok"); ("message", JStr message)]).
Proof.
  cbv zeta. unfold execute_power_action_endpoint.
  destruct (decide (action ∈ ["reboot"; "shutdown"])) as [Hvalid|Hinvalid].
  - split; [done|].
    apply power_action_cases in Hvalid as Hcases.
    destruct Hcases as [-> | ->].
    all: unfold linux_utils.execute_power_action, linux_utils.logged_catch,
           linux_utils.logged_bind, linux_utils.logged_run,
           linux_utils.logged_ret, linux_utils.logged_raise; cbn.
    all: destruct (subprocess_run h
                     [JStr "/root/tars"; JStr "stop"; JStr "all"])
           as [stopped|e]; cbn.
    all: destruct (subprocess_run h _) as [result|e']; cbn.
    all: split; [intros x [= <-]; eauto|intros body [= <-]; eauto].
  - unfold linux_utils.execute_power_action.
    rewrite bool_decide_false by done. cbn.
    split_and!; [done|intros x [= <-]; eauto|done].
Qed.
End http.

Lemma get_processes_top_of_each_witness :
  linux_utils.pid <$> linux_utils.get_processes (Returns procs_example) (JInt 2)
  = [2; 1]
  ∧ let all_processes := take 2000 (linux_utils.to_process <$> procs_example) in
    let r := linux_utils.get_processes (Returns procs_example) (JInt 2) in
    NoDup (linux_utils.pid <$> r)
    ∧ r ⊆ all_processes
    ∧ (length r ≤ 20)%nat
    ∧ Z.of_nat (length r) ≤ Z.max 1 2.
Proof.
  split; [reflexivity|].
  apply (get_processes_top_of_each procs_example 2). lia.
Defined.

Lemma get_processes_top_by_cpu_witness :
  linux_utils.pid <$> linux_utils.get_processes (Returns procs_example) (JInt 21)
  = [2; 1; 3]
  ∧ let all_processes := take 2000 (linux_utils.to_process <$> procs_example) in
    let r := linux_utils.get_processes (Returns procs_example) (JInt 21) in
    r ⊆ all_processes
    ∧ Z.of_nat (length r) = Z.min 21 (Z.of_nat (length all_processes))
    ∧ StronglySorted
        (λ a b, (linux_utils.cpu_percent b ≤ linux_utils.cpu_percent a)%Qc) r
    ∧ ∀ p q, p ∈ r → q ∈ all_processes → q ∉ r →
             (linux_utils.cpu_percent q ≤ linux_utils.cpu_percent p)%Qc.
Proof.
  split; [reflexivity|].
  apply (get_processes_top_by_cpu procs_example 21). lia.
Defined.

Lemma get_processes_nonpositive_limit_witness :
  linux_utils.pid <$> linux_utils.get_processes (Returns procs_example) (JInt 0)
  = [2]
  ∧ ∃ p,
      linux_utils.get_processes (Returns procs_example) (JInt 0) = [p]
      ∧ p ∈ take 2000 (linux_utils.to_process <$> procs_example)
      ∧ ∀ q, q ∈ take 2000 (linux_utils.to_process <$> procs_example) →
             (linux_utils.cpu_percent q ≤ linux_utils.cpu_percent p)%Qc.
Proof.
  split; [reflexivity|].
  apply (get_processes_nonpositive_limit procs_example 0); [lia|discriminate].
Defined.

Lemma execute_power_action_commands_witness :
  linux_utils.execute_power_action host_ok "hibernate"
  = (Raises (Exception "Failed to execute power action: Invalid power action"),
     [])
  ∧ (linux_utils.execute_power_action host_no_docker "reboot").2
    = [[JStr "/root/tars"; JStr "stop"; JStr "all"];
       [JStr "shutdown"; JStr "-r"; JStr "+0"]].
Proof.
  assert (Hinvalid : "hibernate" ∉ ["reboot"; "shutdown"]).
  { apply (bool_decide_unpack _). vm_compute. exact I. }
  assert (Hvalid : "reboot" ∈ ["reboot"; "shutdown"]).
  { apply (bool_decide_unpack _). vm_compute. exact I. }
  split.
  - exact (proj1 (execute_power_action_commands host_ok "hibernate") Hinvalid).
  - exact (proj1 (proj2 (execute_power_action_commands host_no_docker "reboot")
                    Hvalid)).
Defined.


